(** * Message translation and streaming aggregation of the storefront chat agent

    A shallow embedding of the conversation layer of the repository:
    - [LangChain]       : app/services/langchain.server.js (shared helpers),
    - [Claude]          : app/services/claude.server.js,
    - [OpenAILangChain] : app/services/openai.server.js, LangChain variant,
    - [OpenAI]          : app/services/openai.server.js, raw OpenAI client.

    JavaScript values are modelled by the types below.  The builtins
    [JSON.stringify], [JSON.parse] and [Date.now] and LangChain's
    [AIMessageChunk.concat] are not code of the repository: they are the
    fields of the class [Runtime], and every statement holds for all of its
    instances. *)

From Stdlib Require Import ZArith Lia.
From stdpp Require Import base option list strings gmap pretty.

Set Warnings "-register-all".
Local Open Scope string_scope.
Local Open Scope list_scope.

(** ** JavaScript values *)

Inductive json : Type :=
| JNull
| JBool (b : bool)
| JNum (n : Z)
| JStr (s : string)
| JArr (elems : list json)
| JObj (fields : list (string * json)).

(** Property access [o.k]; [None] is [undefined]. *)
Fixpoint assoc (k : string) (fields : list (string * json)) : option json :=
  match fields with
  | [] => None
  | (k', v) :: fields' => if decide (k = k') then Some v else assoc k fields'
  end.

Definition jget (k : string) (j : json) : option json :=
  match j with
  | JObj fields => assoc k fields
  | _ => None
  end.

(** Truthiness of a string and of an optional string ([None] is
    [undefined] or [null]). *)
Definition nonEmpty (s : string) : bool :=
  match s with
  | EmptyString => false
  | String _ _ => true
  end.

Definition truthy (o : option string) : bool :=
  match o with
  | Some s => nonEmpty s
  | None => false
  end.

(** [o || d] on an optional string. *)
Definition orElse (o : option string) (d : string) : string :=
  match o with
  | Some s => if nonEmpty s then s else d
  | None => d
  end.

(** Truthiness of a JSON value. *)
Definition jsTruthy (j : json) : bool :=
  match j with
  | JNull => false
  | JBool b => b
  | JNum n => negb (n =? 0)%Z
  | JStr s => nonEmpty s
  | JArr _ | JObj _ => true
  end.

(** [o || d] on an optional JSON value. *)
Definition jsOr (o : option json) (d : json) : json :=
  match o with
  | Some j => if jsTruthy j then j else d
  | None => d
  end.

(** [input ?? {}]: an absent or null input becomes the empty object. *)
Definition orEmptyObject (input : json) : json :=
  match input with
  | JNull => JObj []
  | _ => input
  end.

(** The line feed the source writes as a backslash followed by n. *)
Definition newline : string := String (Ascii.ascii_of_nat 10) EmptyString.

(** [parts.join(sep)] *)
Fixpoint join (sep : string) (parts : list string) : string :=
  match parts with
  | [] => ""
  | [p] => p
  | p :: parts' => p +:+ sep +:+ join sep parts'
  end.

(** ** The canonical message model (the stored conversation history) *)

Inductive role := System | User | Assistant | Tool.

Global Instance role_eq_dec : EqDecision role.
Proof. solve_decision. Defined.

(** One element of a content array.  [IString] is a bare string element;
    [IOther] is any object whose [type] is none of text, tool_use and
    tool_result (an image reference, say) and that has no [text] field.
    An absent id is the empty string, which is falsy like [undefined]; a
    tool_result block may carry an [id] of its own next to its
    [tool_use_id]. *)
Inductive contentItem :=
| IString (s : string)
| IText (text : string)
| IToolUse (id name : string) (input : json)
| IToolResult (tool_use_id : string) (content : option json) (id : option string)
| IOther (raw : json).

(** The [content] field: [null], a string, an array, one block object, or
    any other value (one without a [type]).  A message that has no
    [content] field at all is not modelled. *)
Inductive messageContent :=
| MNull
| MStr (s : string)
| MArr (items : list contentItem)
| MObj (item : contentItem)
| MOther (raw : json).

Record message := {
  role_of : role;
  content_of : messageContent;
  tool_call_id_of : option string;
  id_of : option string
}.

(** The assistant message a turn returns:
    [{role: "assistant", content, stop_reason}]. *)
Record finalMessage := {
  final_content : list contentItem;
  stop_reason : option string
}.

(** The JSON object a content item denotes, for [JSON.stringify]. *)
Definition itemJson (item : contentItem) : json :=
  match item with
  | IString s => JStr s
  | IText text => JObj [("type", JStr "text"); ("text", JStr text)]
  | IToolUse id name input =>
      JObj [("type", JStr "tool_use"); ("id", JStr id); ("name", JStr name); ("input", input)]
  | IToolResult tool_use_id content id =>
      JObj (("type", JStr "tool_result") :: ("tool_use_id", JStr tool_use_id) ::
            match content with Some c => [("content", c)] | None => [] end ++
            match id with Some i => [("id", JStr i)] | None => [] end)
  | IOther raw => raw
  end.

Definition isToolUse (item : contentItem) : bool :=
  match item with IToolUse _ _ _ => true | _ => false end.

Definition isToolResult (item : contentItem) : bool :=
  match item with IToolResult _ _ _ => true | _ => false end.

Definition isText (item : contentItem) : bool :=
  match item with IText _ => true | _ => false end.

(** ** What the JavaScript runtime and LangChain provide *)

(** A LangChain AI message or chunk, as far as the services read it. *)
Record toolCallLC := {
  lc_id : option string;
  lc_name : string;
  lc_args : option json
}.

Inductive contentLC :=
| LNull
| LStr (s : string)
| LArr (blocks : list contentItem)
| LObj (block : contentItem).

Record aiMessage := {
  ai_content : contentLC;
  ai_tool_calls : option (list toolCallLC);
  ai_stop_reason : option string;      (* additional_kwargs.stop_reason *)
  ai_finish_reason : option string;    (* response_metadata.finish_reason *)
  ai_delta_text : option string        (* additional_kwargs.delta.text *)
}.

Class Runtime := {
  (** [JSON.stringify] *)
  JSON_stringify : json -> string;
  (** [JSON.parse]; [None] when it throws *)
  JSON_parse : string -> option json;
  (** the reading of [Date.now()] while the k-th appended tool call of one
      conversion is built *)
  Date_now : nat -> Z;
  (** [AIMessageChunk.prototype.concat] *)
  concat : aiMessage -> aiMessage -> aiMessage
}.

(** Events a turn makes observable, in order.  [E] is the type of the
    effects of the caller's [onToolUse] handler. *)
Inductive event (E : Type) :=
| OnText (fragment : string)
| OnContentBlock (block : contentItem)
| OnMessage (m : finalMessage)
| ToolUseBegin (block : contentItem)
| Effect (e : E)
| ToolUseEnd (block : contentItem)
| ConsoleError (text : string).

Arguments OnText {E} fragment.
Arguments OnContentBlock {E} block.
Arguments OnMessage {E} m.
Arguments ToolUseBegin {E} block.
Arguments Effect {E} e.
Arguments ToolUseEnd {E} block.
Arguments ConsoleError {E} text.

(** The [streamHandlers] object.  A handler that is present is assumed to
    return normally; [onToolUse] is an async function, given by the effects
    it performs until its promise resolves. *)
Record streamHandlers (E : Type) := {
  onText : bool;
  onContentBlock : bool;
  onMessage : bool;
  onToolUse : option (contentItem -> list E)
}.

Arguments onText {E} _.
Arguments onContentBlock {E} _.
Arguments onMessage {E} _.
Arguments onToolUse {E} _.

(** [await streamHandlers.onToolUse(block)]: the caller resumes only after
    the handler's promise has resolved. *)
Definition awaitToolUse {E} (h : contentItem -> list E) (block : contentItem)
  : list (event E) :=
  ToolUseBegin block :: map Effect (h block) ++ [ToolUseEnd block].

(** ** app/services/langchain.server.js *)

Module LangChain.

Inductive normalized :=
| NStr (s : string)
| NBlocks (blocks : list contentItem).

Inductive lcMessage :=
| SystemMessage (content : string)
| AIMessage (content : normalized) (tool_calls : list toolCallLC)
| HumanMessage (content : normalized)
| ToolMessage (content : string) (tool_call_id : string).

Definition isSystemMessage (m : lcMessage) : bool :=
  match m with SystemMessage _ => true | _ => false end.

Record toolDeclaration := {
  tool_name : string;
  tool_description : option string;
  tool_input_schema : option json
}.

(** [{type: "function", function: {name, description, parameters}}] *)
Record openAITool := {
  fn_name : string;
  fn_description : string;
  fn_parameters : json
}.

Section WithRuntime.
Context `{RT : Runtime}.

Definition safeStringify (value : json) : string :=
  match value with
  | JStr s => s
  | _ => JSON_stringify value
  end.

Definition serializePart (part : json) : string :=
  match part with
  | JStr s => s
  | _ =>
      match jget "type" part, jget "text" part with
      | Some (JStr "text"), Some (JStr text) => text
      | _, _ => safeStringify part
      end
  end.

(** [serializeToolResultContent] on the [content] of a tool_result block *)
Definition serializeToolResultContent (content : option json) : string :=
  match content with
  | None | Some JNull => ""
  | Some (JStr s) => s
  | Some (JArr parts) => join newline (map serializePart parts)
  | Some other =>
      match jget "text" other with
      | Some (JStr text) => text
      | _ => safeStringify other
      end
  end.

Definition serializeItem (part : contentItem) : string :=
  match part with
  | IString s => s
  | IText text => text
  | _ => safeStringify (itemJson part)
  end.

(** [serializeToolResultContent] on the [content] of a stored message *)
Definition serializeMessageContent (content : messageContent) : string :=
  match content with
  | MNull => ""
  | MStr s => s
  | MArr parts => join newline (map serializeItem parts)
  | MObj (IText text) => text
  | MObj item => safeStringify (itemJson item)
  | MOther raw =>
      match jget "text" raw with
      | Some (JStr text) => text
      | _ => safeStringify raw
      end
  end.

Definition normalizeContentBlock (block : contentItem) : contentItem :=
  match block with
  | IString s => IText s
  | IText text => IText text
  | IToolUse id name input => IToolUse id name (orEmptyObject input)
  | IToolResult tool_use_id content _ => IToolResult tool_use_id content None
  | IOther raw =>
      match jget "type" raw with
      | Some (JStr "image_url") =>
          IOther (JObj (("type", JStr "image_url") ::
                        match jget "image_url" raw with
                        | Some u => [("image_url", u)]
                        | None => []
                        end))
      | _ => IOther raw
      end
  end.

Definition normalizeContent (content : messageContent) : normalized :=
  match content with
  | MNull => NStr ""
  | MStr s => NStr s
  | MArr items => NBlocks (map normalizeContentBlock items)
  | MObj item => NBlocks [normalizeContentBlock item]
  | MOther raw => NStr (JSON_stringify raw)
  end.

Definition convertBlock (block : contentItem) : contentItem :=
  match block with
  | IString s => IText s
  | IToolUse id name input => IToolUse id name (orEmptyObject input)
  | IToolResult tool_use_id content _ => IToolResult tool_use_id content None
  | other => other
  end.

Definition convertContentToClaudeBlocks (content : contentLC) : list contentItem :=
  match content with
  | LNull => []
  | LStr s => if nonEmpty s then [IText s] else []
  | LArr blocks => map convertBlock blocks
  | LObj block => [block]
  end.

Definition toolCallOfBlock (block : contentItem) : option toolCallLC :=
  match block with
  | IToolUse id name input =>
      Some {| lc_id := Some id; lc_name := name; lc_args := Some (orEmptyObject input) |}
  | _ => None
  end.

Definition extractToolCalls (content : messageContent) : list toolCallLC :=
  match content with
  | MArr items => omap toolCallOfBlock items
  | _ => []
  end.

Definition isToolResultContent (content : messageContent) : bool :=
  match content with
  | MArr (item :: items) => forallb isToolResult (item :: items)
  | _ => false
  end.

(** [x || y || `tool_${lcMessages.length}`] *)
Definition toolCallIdOr (x y : option string) (lcMessages : list lcMessage) : string :=
  orElse x (orElse y ("tool_" +:+ pretty (length lcMessages))).

(** The body of the loop over the blocks of a tool-result-only message;
    [isToolResultContent] has checked that each block is a tool_result. *)
Definition pushToolResult (lcMessages : list lcMessage) (block : contentItem)
  : list lcMessage :=
  match block with
  | IToolResult tool_use_id content id =>
      lcMessages ++ [ToolMessage (serializeToolResultContent content)
                       (toolCallIdOr (Some tool_use_id) id lcMessages)]
  | _ => lcMessages
  end.

(** One round of the loop of [buildLangChainMessages]. *)
Definition pushMessage (lcMessages : list lcMessage) (m : message) : list lcMessage :=
  match role_of m with
  | System => lcMessages
  | Assistant =>
      lcMessages ++ [AIMessage (normalizeContent (content_of m))
                       (extractToolCalls (content_of m))]
  | User =>
      if isToolResultContent (content_of m) then
        match content_of m with
        | MArr blocks => foldl pushToolResult lcMessages blocks
        | _ => lcMessages
        end
      else lcMessages ++ [HumanMessage (normalizeContent (content_of m))]
  | Tool =>
      lcMessages ++ [ToolMessage (serializeMessageContent (content_of m))
                       (toolCallIdOr (tool_call_id_of m) (id_of m) lcMessages)]
  end.

Definition buildLangChainMessages (messages : list message)
    (systemInstruction : option string) : list lcMessage :=
  foldl pushMessage
    (match systemInstruction with
     | Some s => if nonEmpty s then [SystemMessage s] else []
     | None => []
     end)
    messages.

(** The ids of the tool_use blocks that have a truthy id. *)
Definition toolUseId (block : contentItem) : option string :=
  match block with
  | IToolUse id _ _ => if nonEmpty id then Some id else None
  | _ => None
  end.

Definition existingToolIds (contentBlocks : list contentItem) : gset string :=
  list_to_set (omap toolUseId contentBlocks).

Definition hasId (ids : gset string) (id : option string) : bool :=
  match id with
  | Some s => bool_decide (s ∈ ids)
  | None => false
  end.

Definition toolBlockOf (k : nat) (toolCall : toolCallLC) : contentItem :=
  IToolUse (orElse (lc_id toolCall) ("toolu_" +:+ pretty (Date_now k)))
           (lc_name toolCall)
           (jsOr (lc_args toolCall) (JObj [])).

Definition toolBlocks (contentBlocks : list contentItem)
    (tool_calls : option (list toolCallLC)) : list contentItem :=
  imap toolBlockOf
    (filter (fun toolCall => hasId (existingToolIds contentBlocks) (lc_id toolCall) = false)
            (default [] tool_calls)).

Definition convertAIMessageLikeToClaudeMessage (messageLike : option aiMessage)
    (stopReason : option string) : finalMessage :=
  match messageLike with
  | None => {| final_content := []; stop_reason := stopReason |}
  | Some m =>
      let contentBlocks := convertContentToClaudeBlocks (ai_content m) in
      {| final_content := contentBlocks ++ toolBlocks contentBlocks (ai_tool_calls m);
         stop_reason := match stopReason with
                        | Some s => Some s
                        | None => ai_stop_reason m
                        end |}
  end.

Definition textOf (block : contentItem) : option string :=
  match block with IText text => Some text | _ => None end.

Definition extractTextDeltaFromChunk (chunk : aiMessage) : option string :=
  let deltaText :=
    match ai_delta_text chunk with
    | Some s => if nonEmpty s then Some s else None
    | None => None
    end in
  match ai_content chunk with
  | LStr s => if nonEmpty s then Some s else None
  | LArr blocks =>
      let text := join "" (omap textOf blocks) in
      if nonEmpty text then Some text else deltaText
  | _ => deltaText
  end.

Definition defaultParameters : json :=
  JObj [("type", JStr "object"); ("properties", JObj []);
        ("additionalProperties", JBool true)].

Definition convertTool (tool : toolDeclaration) : openAITool :=
  {| fn_name := tool_name tool;
     fn_description := orElse (tool_description tool) "";
     fn_parameters := jsOr (tool_input_schema tool) defaultParameters |}.

End WithRuntime.

(** [new AIMessageChunk({ content: "" })]: the constructor's defaults. *)
Definition createEmptyAIMessageChunk : aiMessage :=
  {| ai_content := LStr ""; ai_tool_calls := Some [];
     ai_stop_reason := None; ai_finish_reason := None; ai_delta_text := None |}.

(** [undefined] (here [None]) unless [tools] is a non-empty array. *)
Definition convertClaudeToolsToOpenAITools (tools : option (list toolDeclaration))
  : option (list openAITool) :=
  match tools with
  | Some (tool :: tools') => Some (map convertTool (tool :: tools'))
  | _ => None
  end.

End LangChain.

(** ** app/services/claude.server.js *)

Module Claude.
Import LangChain.

Record callOptions := { tools_field : option (list toolDeclaration) }.

(** [callOptions.tools] is set only for a non-empty catalog. *)
Definition buildCallOptions (tools : option (list toolDeclaration)) : callOptions :=
  match tools with
  | Some (tool :: tools') => {| tools_field := Some (tool :: tools') |}
  | _ => {| tools_field := None |}
  end.

(** The variables of the streaming loop. *)
Record loopState (E : Type) := {
  aggregatedChunk : option aiMessage;
  latestStopReason : option string;
  emitted : list (event E)
}.

Arguments aggregatedChunk {E} _.
Arguments latestStopReason {E} _.
Arguments emitted {E} _.

Section WithRuntime.
Context `{RT : Runtime} {E : Type}.

Definition textEvents (streamHandlers : streamHandlers E) (textDelta : option string)
  : list (event E) :=
  match textDelta with
  | Some text =>
      (if onText streamHandlers then [OnText text] else []) ++
      (if onContentBlock streamHandlers then [OnContentBlock (IText text)] else [])
  | None => []
  end.

(** One round of [for await (const chunk of stream)]. *)
Definition onChunk (streamHandlers : streamHandlers E) (st : loopState E)
    (chunk : aiMessage) : loopState E :=
  {| aggregatedChunk :=
       Some (match aggregatedChunk st with
             | Some aggregated => concat aggregated chunk
             | None => chunk
             end);
     latestStopReason :=
       if truthy (ai_stop_reason chunk) then ai_stop_reason chunk
       else latestStopReason st;
     emitted :=
       emitted st ++ textEvents streamHandlers (extractTextDeltaFromChunk chunk) |}.

(** The loop [for (const contentBlock of finalMessage.content)] with its
    awaited handler calls. *)
Definition dispatchToolUse (streamHandlers : streamHandlers E)
    (content : list contentItem) : list (event E) :=
  match onToolUse streamHandlers with
  | Some handler => flat_map (awaitToolUse handler) (filter (fun b => isToolUse b = true) content)
  | None => []
  end.

(** [streamConversation] from the provider's stream on: the events in the
    order they happen and the message returned. *)
Definition runStream (streamHandlers : streamHandlers E) (stream : list aiMessage)
  : loopState E :=
  foldl (onChunk streamHandlers)
        {| aggregatedChunk := None; latestStopReason := None; emitted := [] |}
        stream.

Definition streamConversation (stream : list aiMessage)
    (streamHandlers : streamHandlers E) : list (event E) * finalMessage :=
  let st := runStream streamHandlers stream in
  let finalChunk := default createEmptyAIMessageChunk (aggregatedChunk st) in
  let finalMessage :=
    convertAIMessageLikeToClaudeMessage (Some finalChunk) (latestStopReason st) in
  (emitted st
     ++ (if onMessage streamHandlers then [OnMessage finalMessage] else [])
     ++ dispatchToolUse streamHandlers (final_content finalMessage),
   finalMessage).

(** The request of [streamConversation]: the messages and options passed to
    [anthropic.stream]. *)
Definition buildRequest (messages : list message) (systemInstruction : option string)
    (tools : option (list toolDeclaration)) : list lcMessage * callOptions :=
  (buildLangChainMessages messages systemInstruction, buildCallOptions tools).

End WithRuntime.
End Claude.

(** ** app/services/openai.server.js, on LangChain *)

Module OpenAILangChain.
Import LangChain.

Definition mapOpenAiFinishReason (finishReason : option string) : option string :=
  match finishReason with
  | None => None
  | Some code =>
      if negb (nonEmpty code) then None
      else if decide (code = "stop") then Some "end_turn"
      else if decide (code = "length") then Some "max_tokens"
      else if decide (code = "tool_calls") then None
      else Some code
  end.

Record loopState (E : Type) := {
  aggregatedChunk : option aiMessage;
  finishReason : option string;
  emitted : list (event E)
}.

Arguments aggregatedChunk {E} _.
Arguments finishReason {E} _.
Arguments emitted {E} _.

Section WithRuntime.
Context `{RT : Runtime} {E : Type}.

Definition onChunk (streamHandlers : streamHandlers E) (st : loopState E)
    (chunk : aiMessage) : loopState E :=
  {| aggregatedChunk :=
       Some (match aggregatedChunk st with
             | Some aggregated => concat aggregated chunk
             | None => chunk
             end);
     finishReason :=
       if truthy (ai_finish_reason chunk) then ai_finish_reason chunk
       else finishReason st;
     emitted :=
       emitted st ++ Claude.textEvents streamHandlers (extractTextDeltaFromChunk chunk) |}.

Definition runStream (streamHandlers : streamHandlers E) (stream : list aiMessage)
  : loopState E :=
  foldl (onChunk streamHandlers)
        {| aggregatedChunk := None; finishReason := None; emitted := [] |}
        stream.

Definition streamConversation (stream : list aiMessage)
    (streamHandlers : streamHandlers E) : list (event E) * finalMessage :=
  let st := runStream streamHandlers stream in
  let finalChunk := default createEmptyAIMessageChunk (aggregatedChunk st) in
  let stopReason := mapOpenAiFinishReason (finishReason st) in
  let finalMessage := convertAIMessageLikeToClaudeMessage (Some finalChunk) stopReason in
  (emitted st
     ++ (if onMessage streamHandlers then [OnMessage finalMessage] else [])
     ++ Claude.dispatchToolUse streamHandlers (final_content finalMessage),
   finalMessage).

(** [callOptions]: [{ tools: openaiTools }] or [undefined]. *)
Definition buildRequest (messages : list message) (systemInstruction : option string)
    (tools : option (list toolDeclaration))
  : list lcMessage * option (list openAITool) :=
  (buildLangChainMessages messages systemInstruction,
   convertClaudeToolsToOpenAITools tools).

End WithRuntime.
End OpenAILangChain.

(** ** app/services/openai.server.js, on the raw OpenAI client *)

Module OpenAI.

(** [{id, type: "function", function: {name, arguments}}] *)
Record toolCall := {
  call_id : string;
  call_name : string;
  call_arguments : string
}.

(** An element of the [textContent] array: a string, or the block itself
    when its text is falsy. *)
Inductive textPart :=
| PartStr (s : string)
| PartObj (item : contentItem).

(** The [content] field of an outgoing message; [CAbsent] is a deleted
    field. *)
Inductive content :=
| CAbsent
| CNull
| CStr (s : string)
| CItems (items : list contentItem)
| CObj (item : contentItem).

Record openaiMessage := {
  msg_role : role;
  msg_content : content;
  msg_tool_calls : option (list toolCall);
  msg_tool_call_id : option string
}.

Record openAITool := {
  fn_name : string;
  fn_description : string;
  fn_parameters : json
}.

Record request := {
  req_messages : list openaiMessage;
  req_tools : option (list openAITool)
}.

(** A unit of the provider's stream: [chunk.choices[0]], read through
    [delta.content], [delta.tool_calls] and [finish_reason]. *)
Record toolCallDelta := {
  delta_index : nat;
  delta_id : option string;
  delta_name : option string;        (* function?.name *)
  delta_arguments : option string    (* function?.arguments *)
}.

Record choice := {
  delta_content : option string;
  delta_tool_calls : option (list toolCallDelta);
  finish_reason : option string
}.

Record chunk := { choices0 : option choice }.

Record loopState (E : Type) := {
  accumulatedContent : list contentItem;
  accumulatedToolCalls : list toolCall;
  current_stop_reason : option string;
  emitted : list (event E)
}.

Arguments accumulatedContent {E} _.
Arguments accumulatedToolCalls {E} _.
Arguments current_stop_reason {E} _.
Arguments emitted {E} _.

Definition isSystem (m : message) : bool := bool_decide (role_of m = System).

Definition hasToolResults (items : list contentItem) : bool := existsb isToolResult items.

Definition partString (part : textPart) : string :=
  match part with
  | PartStr s => s
  | PartObj _ => "[object Object]"
  end.

(** [textContent.length === 1 ? textContent[0] : textContent.join(newline)] *)
Definition userContent (textContent : list textPart) : content :=
  match textContent with
  | [PartStr s] => CStr s
  | [PartObj item] => CObj item
  | _ => CStr (join newline (map partString textContent))
  end.

Definition userMessage (textContent : list textPart) : openaiMessage :=
  {| msg_role := User; msg_content := userContent textContent;
     msg_tool_calls := None; msg_tool_call_id := None |}.

Definition emptyToolMessage (toolCall : toolCall) : openaiMessage :=
  {| msg_role := Tool; msg_content := CStr "";
     msg_tool_calls := None; msg_tool_call_id := Some (call_id toolCall) |}.

(** The [toolResultMap] of a batch: tool_use_id to result content, the last
    [set] for an id winning. *)
Definition setToolResult (toolResultMap : gmap string (option json))
    (contentItem : contentItem) : gmap string (option json) :=
  match contentItem with
  | IToolResult tool_use_id content _ => <[tool_use_id := content]> toolResultMap
  | _ => toolResultMap
  end.

Definition toolResultMapOf (items : list contentItem) : gmap string (option json) :=
  foldl setToolResult ∅ items.

Section WithRuntime.
Context `{RT : Runtime}.

Definition toolCallOf (contentItem : contentItem) : option toolCall :=
  match contentItem with
  | IToolUse id name input =>
      Some {| call_id := id; call_name := name;
              call_arguments := JSON_stringify input |}
  | _ => None
  end.

Definition toolCallsOf (items : list contentItem) : list toolCall :=
  omap toolCallOf items.

Definition textItem (contentItem : contentItem) : option string :=
  match contentItem with IText text => Some text | _ => None end.

(** The entry pushed for an assistant message with array content. *)
Definition assistantMessage (items : list contentItem) : openaiMessage :=
  let toolCalls := toolCallsOf items in
  let convertedContent := omap textItem items in
  let content :=
    match convertedContent with
    | [] => CNull
    | [text] => CStr text
    | _ => CItems (map IText convertedContent)
    end in
  let tool_calls := match toolCalls with [] => None | _ => Some toolCalls end in
  {| msg_role := Assistant;
     msg_content :=
       match tool_calls, content with
       | Some _, CNull => CAbsent
       | Some _, CStr EmptyString => CAbsent
       | _, _ => content
       end;
     msg_tool_calls := tool_calls;
     msg_tool_call_id := None |}.

Definition textPartOf (contentItem : contentItem) : textPart :=
  match contentItem with
  | IText text => if nonEmpty text then PartStr text else PartObj contentItem
  | IString s => PartStr s
  | other => PartStr (JSON_stringify (itemJson other))
  end.

(** The [textContent] collected from a user message: every item that is
    not a tool_result. *)
Definition textContentOf (items : list contentItem) : list textPart :=
  map textPartOf (filter (fun item => isToolResult item = false) items).

(** The tool message answering [toolCall] out of [toolResultMap]. *)
Definition toolMessage (toolResultMap : gmap string (option json))
    (toolCall : toolCall) : openaiMessage :=
  {| msg_role := Tool;
     msg_content :=
       CStr match toolResultMap !! call_id toolCall with
            | Some (Some (JStr s)) => s
            | Some (Some toolResultContent) => JSON_stringify toolResultContent
            | _ => ""
            end;
     msg_tool_calls := None;
     msg_tool_call_id := Some (call_id toolCall) |}.

Definition simpleItemText (c : contentItem) : string :=
  match c with
  | IString s => s
  | IText text => if nonEmpty text then text else JSON_stringify (itemJson c)
  | other => JSON_stringify (itemJson other)
  end.

(** The entry of the last branch, "Simple text message". *)
Definition simpleMessage (m : message) : openaiMessage :=
  {| msg_role := role_of m;
     msg_content :=
       CStr match content_of m with
            | MStr s => s
            | MArr items => join "" (map simpleItemText items)
            | MNull => JSON_stringify JNull
            | MObj item => JSON_stringify (itemJson item)
            | MOther raw => JSON_stringify raw
            end;
     msg_tool_calls := None;
     msg_tool_call_id := None |}.

(** The conversion loop [for (let i = 0; i < messages.length; i++)], by
    recursion on the messages from index [i] on; the branch that does [i++]
    recurses past the next message as well. *)
Fixpoint convertMessages (hasSystemMessage : bool) (messages : list message)
  : list openaiMessage :=
  match messages with
  | [] => []
  | m :: rest =>
      if isSystem m && negb hasSystemMessage then convertMessages hasSystemMessage rest
      else
        match role_of m, content_of m with
        | Assistant, MArr items =>
            let toolCalls := toolCallsOf items in
            match toolCalls, rest with
            | [], _ => assistantMessage items :: convertMessages hasSystemMessage rest
            | _ :: _, [] => assistantMessage items :: map emptyToolMessage toolCalls
            | _ :: _, nextMessage :: rest' =>
                match role_of nextMessage, content_of nextMessage with
                | User, MArr nextItems =>
                    if hasToolResults nextItems then
                      assistantMessage items
                        :: map (toolMessage (toolResultMapOf nextItems)) toolCalls
                        ++ match textContentOf nextItems with
                           | [] => []
                           | textContent => [userMessage textContent]
                           end
                        ++ convertMessages hasSystemMessage rest'
                    else
                      assistantMessage items
                        :: map emptyToolMessage toolCalls
                        ++ convertMessages hasSystemMessage rest
                | _, _ =>
                    assistantMessage items
                      :: map emptyToolMessage toolCalls
                      ++ convertMessages hasSystemMessage rest
                end
            end
        | User, MArr items =>
            if hasToolResults items then convertMessages hasSystemMessage rest
            else userMessage (textContentOf items) :: convertMessages hasSystemMessage rest
        | _, _ => simpleMessage m :: convertMessages hasSystemMessage rest
        end
  end.

Definition systemMessage (systemInstruction : string) : openaiMessage :=
  {| msg_role := System; msg_content := CStr systemInstruction;
     msg_tool_calls := None; msg_tool_call_id := None |}.

(** The leading entry: pushed when no stored message is a system message
    and the instruction is truthy. *)
Definition systemPrefix (messages : list message) (systemInstruction : option string)
  : list openaiMessage :=
  match systemInstruction with
  | Some s => if negb (existsb isSystem messages) && nonEmpty s then [systemMessage s] else []
  | None => []
  end.

(** The [openaiMessages] array of [streamConversation]. *)
Definition buildOpenAIMessages (messages : list message)
    (systemInstruction : option string) : list openaiMessage :=
  systemPrefix messages systemInstruction
    ++ convertMessages (existsb isSystem messages) messages.

End WithRuntime.

Definition convertTool (tool : LangChain.toolDeclaration) : openAITool :=
  {| fn_name := LangChain.tool_name tool;
     fn_description := orElse (LangChain.tool_description tool) "";
     fn_parameters := jsOr (LangChain.tool_input_schema tool) (JObj []) |}.

(** [openaiTools]: [undefined] (here [None]) for an absent or empty catalog. *)
Definition convertTools (tools : option (list LangChain.toolDeclaration))
  : option (list openAITool) :=
  match tools with
  | Some (tool :: tools') => Some (map convertTool (tool :: tools'))
  | _ => None
  end.

Definition buildRequest `{RT : Runtime} (messages : list message)
    (systemInstruction : option string)
    (tools : option (list LangChain.toolDeclaration)) : request :=
  {| req_messages := buildOpenAIMessages messages systemInstruction;
     req_tools := convertTools tools |}.

(** The stop reason after a chunk whose [finish_reason] is truthy. *)
Definition stopReasonOf (finish_reason : string) : option string :=
  if decide (finish_reason = "stop") then Some "end_turn"
  else if decide (finish_reason = "tool_calls") then None
  else Some finish_reason.

(** One round of [for (const toolCallDelta of delta.tool_calls)]: a new
    entry is pushed when [index >= accumulatedToolCalls.length], else the
    entry at [index] is continued. *)
Definition onToolCallDelta (accumulatedToolCalls : list toolCall)
    (toolCallDelta : toolCallDelta) : list toolCall :=
  if decide (length accumulatedToolCalls <= delta_index toolCallDelta) then
    accumulatedToolCalls ++
      [{| call_id := orElse (delta_id toolCallDelta) "";
          call_name := orElse (delta_name toolCallDelta) "";
          call_arguments := orElse (delta_arguments toolCallDelta) "" |}]
  else
    alter (fun currentToolCall =>
             {| call_id := call_id currentToolCall;
                call_name := call_name currentToolCall
                               +:+ orElse (delta_name toolCallDelta) "";
                call_arguments := call_arguments currentToolCall
                                    +:+ orElse (delta_arguments toolCallDelta) "" |})
          (delta_index toolCallDelta) accumulatedToolCalls.

Section Streaming.
Context `{RT : Runtime} {E : Type}.

(** One round of [for await (const chunk of stream)]. *)
Definition onChunk (streamHandlers : streamHandlers E) (st : loopState E)
    (chunk : chunk) : loopState E :=
  match choices0 chunk with
  | None => st
  | Some choice =>
      let text := if truthy (delta_content choice) then delta_content choice else None in
      {| accumulatedContent :=
           accumulatedContent st ++
             match text with Some t => [IText t] | None => [] end;
         accumulatedToolCalls :=
           foldl onToolCallDelta (accumulatedToolCalls st)
                 (default [] (delta_tool_calls choice));
         current_stop_reason :=
           match finish_reason choice with
           | Some code =>
               if nonEmpty code then stopReasonOf code else current_stop_reason st
           | None => current_stop_reason st
           end;
         emitted :=
           emitted st ++
             match text with
             | Some t =>
                 (if onText streamHandlers then [OnText t] else []) ++
                 (if onContentBlock streamHandlers then [OnContentBlock (IText t)] else [])
             | None => []
             end |}
  end.

(** The body of the [try] of both loops over [accumulatedToolCalls]:
    [None] when [JSON.parse] throws. *)
Definition toolUseOf (toolCall : toolCall) : option contentItem :=
  match JSON_parse (call_arguments toolCall) with
  | Some toolArgs => Some (IToolUse (call_id toolCall) (call_name toolCall) toolArgs)
  | None => None
  end.

Definition parseErrorText : string := "Error parsing tool call arguments:".

(** The [console.error] calls of the loop that completes [finalMessage.content]. *)
Definition buildErrors (accumulatedToolCalls : list toolCall) : list (event E) :=
  flat_map (fun toolCall =>
              match toolUseOf toolCall with
              | Some _ => []
              | None => [ConsoleError parseErrorText]
              end) accumulatedToolCalls.

(** The loop "Process tool calls after stream completes". *)
Definition dispatchToolCalls (streamHandlers : streamHandlers E)
    (accumulatedToolCalls : list toolCall) : list (event E) :=
  match onToolUse streamHandlers with
  | Some handler =>
      flat_map (fun toolCall =>
                  match toolUseOf toolCall with
                  | Some block => awaitToolUse handler block
                  | None => [ConsoleError parseErrorText]
                  end) accumulatedToolCalls
  | None => []
  end.

(** [streamConversation] from the provider's stream on: the events in the
    order they happen and the message returned. *)
Definition runStream (streamHandlers : streamHandlers E) (stream : list chunk)
  : loopState E :=
  foldl (onChunk streamHandlers)
        {| accumulatedContent := []; accumulatedToolCalls := [];
           current_stop_reason := None; emitted := [] |}
        stream.

Definition streamConversation (stream : list chunk)
    (streamHandlers : streamHandlers E) : list (event E) * finalMessage :=
  let st := runStream streamHandlers stream in
  let finalMessage :=
    {| final_content :=
         accumulatedContent st ++ omap toolUseOf (accumulatedToolCalls st);
       stop_reason := current_stop_reason st |} in
  (emitted st
     ++ buildErrors (accumulatedToolCalls st)
     ++ dispatchToolCalls streamHandlers (accumulatedToolCalls st)
     ++ (if onMessage streamHandlers then [OnMessage finalMessage] else []),
   finalMessage).

End Streaming.

End OpenAI.

(** ** Sample runtime and inputs, for the concrete instances below *)

(** [concat] as LangChain merges two chunks with string content: the
    strings are concatenated and the tool calls appended. *)
Definition sampleConcat (a b : aiMessage) : aiMessage :=
  {| ai_content :=
       match ai_content a, ai_content b with
       | LStr x, LStr y => LStr (x +:+ y)
       | x, _ => x
       end;
     ai_tool_calls := Some (default [] (ai_tool_calls a) ++ default [] (ai_tool_calls b));
     ai_stop_reason := from_option Some (ai_stop_reason a) (ai_stop_reason b);
     ai_finish_reason := from_option Some (ai_finish_reason a) (ai_finish_reason b);
     ai_delta_text := ai_delta_text b |}.

(** A [JSON.parse] that knows the empty object and the empty array. *)
Definition sampleRuntime : Runtime :=
  {| JSON_stringify := fun _ => "<json>";
     JSON_parse := fun text =>
       if decide (text = "{}") then Some (JObj [])
       else if decide (text = "[]") then Some (JArr [])
       else None;
     Date_now := fun k => 1700000000000%Z;
     concat := sampleConcat |}.

Definition noHandlers : streamHandlers Empty_set :=
  {| onText := false; onContentBlock := false; onMessage := false; onToolUse := None |}.

(** Handlers that are all present; the tool handler performs one effect,
    naming the tool it ran. *)
Definition allHandlers : streamHandlers string :=
  {| onText := true; onContentBlock := true; onMessage := true;
     onToolUse := Some (fun block =>
                          match block with
                          | IToolUse _ name _ => [name]
                          | _ => []
                          end) |}.

Definition mkMessage (r : role) (c : messageContent) : message :=
  {| role_of := r; content_of := c; tool_call_id_of := None; id_of := None |}.

Definition textChunk (text : string) : OpenAI.chunk :=
  {| OpenAI.choices0 :=
       Some {| OpenAI.delta_content := Some text;
               OpenAI.delta_tool_calls := None;
               OpenAI.finish_reason := None |} |}.

Definition finishChunk (code : string) : OpenAI.chunk :=
  {| OpenAI.choices0 :=
       Some {| OpenAI.delta_content := None;
               OpenAI.delta_tool_calls := None;
               OpenAI.finish_reason := Some code |} |}.

Definition toolChunk (deltas : list OpenAI.toolCallDelta) : OpenAI.chunk :=
  {| OpenAI.choices0 :=
       Some {| OpenAI.delta_content := None;
               OpenAI.delta_tool_calls := Some deltas;
               OpenAI.finish_reason := None |} |}.

Definition toolDelta (i : nat) (id name args : option string) : OpenAI.toolCallDelta :=
  {| OpenAI.delta_index := i; OpenAI.delta_id := id;
     OpenAI.delta_name := name; OpenAI.delta_arguments := args |}.

(** ** Notions the statements use *)

(** The blocks [onToolUse] was called with, in call order. *)
Definition toolUseBegins {E} (events : list (event E)) : list contentItem :=
  omap (fun e => match e with ToolUseBegin block => Some block | _ => None end) events.

(** The events of tool dispatch: a call, what the handler does, its return. *)
Definition isToolEvent {E} (e : event E) : bool :=
  match e with
  | ToolUseBegin _ | Effect _ | ToolUseEnd _ => true
  | _ => false
  end.

Definition toolEvents {E} (events : list (event E)) : list (event E) :=
  filter (fun e => isToolEvent e = true) events.

Definition isConsoleError {E} (e : event E) : bool :=
  match e with ConsoleError _ => true | _ => false end.

(** The ids of the tool_use blocks of a content array, in order. *)
Definition toolUseIds (blocks : list contentItem) : list string :=
  omap (fun block => match block with IToolUse id _ _ => Some id | _ => None end) blocks.

(** The truthy [delta.content] fragments of a stream, in arrival order. *)
Definition fragmentsOf (stream : list OpenAI.chunk) : list string :=
  omap (fun chunk =>
          match OpenAI.choices0 chunk with
          | Some choice =>
              if truthy (OpenAI.delta_content choice) then OpenAI.delta_content choice
              else None
          | None => None
          end) stream.

(** The result map of the message right after an assistant message: the
    results of a user message with array content, none otherwise. *)
Definition batchResults (post : list message) : gmap string (option json) :=
  match post with
  | nextMessage :: _ =>
      match role_of nextMessage, content_of nextMessage with
      | User, MArr nextItems => OpenAI.toolResultMapOf nextItems
      | _, _ => ∅
      end
  | [] => ∅
  end.

(** The results a content array holds for an invocation id, in order. *)
Definition resultsWithId (id : string) (items : list contentItem) : list (option json) :=
  omap (fun item =>
          match item with
          | IToolResult tool_use_id content _ =>
              if decide (tool_use_id = id) then Some content else None
          | _ => None
          end) items.

(** The result the adapter correlates with an invocation id: the content of
    the last tool_result block with that id in the message right after the
    assistant message, when that message is a user message with array
    content.  The adapter looks nowhere else: a result held by a later
    message, or by a message of role tool, is not correlated. *)
Definition correlatedResult (id : string) (post : list message) : option json :=
  match post with
  | nextMessage :: _ =>
      match role_of nextMessage, content_of nextMessage with
      | User, MArr nextItems => mjoin (last (resultsWithId id nextItems))
      | _, _ => None
      end
  | [] => None
  end.

(** The content of the reply to an invocation: the result when it is a
    string, its JSON text otherwise, the empty string without a result. *)
Definition replyContent `{RT : Runtime} (result : option json) : OpenAI.content :=
  OpenAI.CStr match result with
              | Some (JStr s) => s
              | Some toolResultContent => JSON_stringify toolResultContent
              | None => ""
              end.

(** What the conversion emits after the tool replies of an assistant message
    with array content [items], given the messages [rest] that follow it. *)
Definition afterReplies `{RT : Runtime} (h : bool) (items : list contentItem)
    (rest : list message) : list OpenAI.openaiMessage :=
  match OpenAI.toolCallsOf items, rest with
  | _ :: _, nextMessage :: rest' =>
      match role_of nextMessage, content_of nextMessage with
      | User, MArr nextItems =>
          if OpenAI.hasToolResults nextItems then
            match OpenAI.textContentOf nextItems with
            | [] => []
            | textContent => [OpenAI.userMessage textContent]
            end ++ OpenAI.convertMessages h rest'
          else OpenAI.convertMessages h rest
      | _, _ => OpenAI.convertMessages h rest
      end
  | _, _ => OpenAI.convertMessages h rest
  end.


(** The canonical finish reasons as the specification lists them. *)
Inductive FinishReason :=
| end_of_turn
| max_tokens_reached
| tool_invocation_pending
| provider_specific (code : string)
| unknown.

Definition storedSystemHistory : list message :=
  [mkMessage System (MStr "stored prompt"); mkMessage User (MStr "hi")].

Definition sampleCall (id name : string) : toolCallLC :=
  {| lc_id := Some id; lc_name := name; lc_args := Some (JObj []) |}.

Definition chunkOf (content : contentLC) (toolCalls : list toolCallLC) : aiMessage :=
  {| ai_content := content; ai_tool_calls := Some toolCalls;
     ai_stop_reason := None; ai_finish_reason := None; ai_delta_text := None |}.

(** A message whose tool_calls list names the same call twice. *)
Definition repeatedCallMessage : aiMessage :=
  chunkOf (LStr "") [sampleCall "call_a" "get_cart"; sampleCall "call_a" "get_cart"].

(** A message as the Anthropic binding gives it: the tool_use block is in the
    content and the same call is in tool_calls, next to a second call. *)
Definition mergedCallMessage : aiMessage :=
  chunkOf (LArr [IText "Looking"; IToolUse "call_a" "get_cart" (JObj [])])
          [sampleCall "call_a" "get_cart"; sampleCall "call_b" "update_cart"].

(** A user message with a tool result and text that answers no assistant
    message, and one that answers the invocation before it. *)
Definition batchItems : list contentItem :=
  [IToolResult "call_a" (Some (JStr "ok")) None; IText "thanks"].

Definition orphanBatchHistory : list message :=
  [mkMessage User (MStr "hi"); mkMessage User (MArr batchItems)].

(** Two tool calls arriving in fragments: the arguments of the first never
    form valid JSON, those of the second do. *)
Definition twoCallsStream : list OpenAI.chunk :=
  [toolChunk [toolDelta 0 (Some "call_a") (Some "search_shop_catalog") (Some "{");
              toolDelta 1 (Some "call_b") (Some "get_cart") (Some "{")];
   toolChunk [toolDelta 1 None None (Some "}")];
   finishChunk "tool_calls"].

Definition notSystem (lcMessage : LangChain.lcMessage) : Prop :=
  LangChain.isSystemMessage lcMessage = false.

(** ** Notions the further statements use *)

(** A request is answered when each entry with tool calls is followed at
    once by one tool reply per call, in the order of the calls, and no entry
    with a tool_call_id stands anywhere else.  [pending] are the ids that
    are still to be answered at the head of [entries]. *)
Fixpoint answeredFrom (pending : list string) (entries : list OpenAI.openaiMessage)
  : bool :=
  match entries with
  | [] => match pending with [] => true | _ :: _ => false end
  | entry :: entries' =>
      match pending with
      | id :: pending' =>
          match OpenAI.msg_role entry, OpenAI.msg_tool_call_id entry,
                OpenAI.msg_tool_calls entry with
          | Tool, Some id', None => bool_decide (id' = id) && answeredFrom pending' entries'
          | _, _, _ => false
          end
      | [] =>
          match OpenAI.msg_tool_call_id entry with
          | Some _ => false
          | None =>
              answeredFrom
                (map OpenAI.call_id (default [] (OpenAI.msg_tool_calls entry))) entries'
          end
      end
  end.

(** The entry of a message of role [r] whose content is the string [text]. *)
Definition textEntry (turn : role * string) : OpenAI.openaiMessage :=
  {| OpenAI.msg_role := turn.1; OpenAI.msg_content := OpenAI.CStr turn.2;
     OpenAI.msg_tool_calls := None; OpenAI.msg_tool_call_id := None |}.

Definition textMessage (turn : role * string) : message :=
  mkMessage turn.1 (MStr turn.2).

(** A user or assistant turn with string content, and the LangChain message
    it becomes. *)
Definition chatMessage (turn : bool * string) : message :=
  mkMessage (if turn.1 then User else Assistant) (MStr turn.2).

Definition chatEntry (turn : bool * string) : LangChain.lcMessage :=
  if turn.1 then LangChain.HumanMessage (LangChain.NStr turn.2)
  else LangChain.AIMessage (LangChain.NStr turn.2) [].

(** The tool_result block of a tool_use_id, a result content and the id the
    block may carry itself. *)
Definition resultBlock (result : string * option json * option string) : contentItem :=
  IToolResult result.1.1 result.1.2 result.2.

(** A tool message names the call it answers. *)
Definition namesItsCall (lcMessage : LangChain.lcMessage) : Prop :=
  match lcMessage with
  | LangChain.ToolMessage _ tool_call_id => nonEmpty tool_call_id = true
  | _ => True
  end.

(** The tool calls of an AI message are the tool_use blocks of its content,
    in order. *)
Definition callsMatchContent (lcMessage : LangChain.lcMessage) : Prop :=
  match lcMessage with
  | LangChain.AIMessage (LangChain.NBlocks blocks) tool_calls =>
      tool_calls = omap LangChain.toolCallOfBlock blocks
  | LangChain.AIMessage (LangChain.NStr _) tool_calls => tool_calls = []
  | _ => True
  end.

(** The content of a stored message is absent, a string or an array. *)
Definition plainContent (m : message) : Prop :=
  match content_of m with
  | MObj _ | MOther _ => False
  | _ => True
  end.

Definition toolUseHistory : list message :=
  [mkMessage User (MStr "what is in my cart");
   mkMessage Assistant (MArr [IText "Let me look"; IToolUse "call_a" "get_cart" JNull]);
   mkMessage User (MArr [IToolResult "call_a" (Some (JStr "empty")) None])].

(** The fragments [onText] was called with, the blocks [onContentBlock] was
    called with and the messages [onMessage] was called with, in call
    order, and the number of [console.error] calls. *)
Definition textFragments {E} (events : list (event E)) : list string :=
  omap (fun e => match e with OnText fragment => Some fragment | _ => None end) events.

Definition contentBlockEvents {E} (events : list (event E)) : list contentItem :=
  omap (fun e => match e with OnContentBlock block => Some block | _ => None end) events.

Definition messageEvents {E} (events : list (event E)) : list finalMessage :=
  omap (fun e => match e with OnMessage m => Some m | _ => None end) events.

Definition errorCount {E} (events : list (event E)) : nat :=
  length (filter (fun e => isConsoleError e = true) events).

(** The truthy finish codes of a raw stream, in arrival order. *)
Definition finishCodes (stream : list OpenAI.chunk) : list string :=
  omap (fun chunk =>
          match OpenAI.choices0 chunk with
          | Some choice =>
              if truthy (OpenAI.finish_reason choice) then OpenAI.finish_reason choice
              else None
          | None => None
          end) stream.

(** The truthy stop reasons and finish reasons of the chunks of a LangChain
    stream, in arrival order. *)
Definition stopReasons (stream : list aiMessage) : list string :=
  omap (fun chunk => if truthy (ai_stop_reason chunk) then ai_stop_reason chunk else None)
       stream.

Definition finishReasons (stream : list aiMessage) : list string :=
  omap (fun chunk => if truthy (ai_finish_reason chunk) then ai_finish_reason chunk else None)
       stream.

(** The name fragments and the argument fragments of a list of tool-call
    deltas, each concatenated in arrival order. *)
Definition nameText (deltas : list OpenAI.toolCallDelta) : string :=
  join "" (map (fun d => orElse (OpenAI.delta_name d) "") deltas).

Definition argumentsText (deltas : list OpenAI.toolCallDelta) : string :=
  join "" (map (fun d => orElse (OpenAI.delta_arguments d) "") deltas).

(** The slot a delta opens. *)
Definition openedSlot (d : OpenAI.toolCallDelta) : OpenAI.toolCall :=
  {| OpenAI.call_id := orElse (OpenAI.delta_id d) "";
     OpenAI.call_name := orElse (OpenAI.delta_name d) "";
     OpenAI.call_arguments := orElse (OpenAI.delta_arguments d) "" |}.

(** A slot continued by fragments: the id stays, name and arguments grow at
    their end. *)
Definition continued (slot : OpenAI.toolCall) (name arguments : string)
  : OpenAI.toolCall :=
  {| OpenAI.call_id := OpenAI.call_id slot;
     OpenAI.call_name := OpenAI.call_name slot +:+ name;
     OpenAI.call_arguments := OpenAI.call_arguments slot +:+ arguments |}.

Definition extends (old new : OpenAI.toolCall) : Prop :=
  exists name arguments, new = continued old name arguments.

(** The tool-call deltas of a raw stream, in arrival order, and the slots
    they build. *)
Definition deltasOf (stream : list OpenAI.chunk) : list OpenAI.toolCallDelta :=
  flat_map (fun chunk =>
              match OpenAI.choices0 chunk with
              | Some choice => default [] (OpenAI.delta_tool_calls choice)
              | None => []
              end) stream.

Definition slotsOf (stream : list OpenAI.chunk) : list OpenAI.toolCall :=
  foldl OpenAI.onToolCallDelta [] (deltasOf stream).

(** The chunks of a LangChain stream merged from left to right, the blank
    chunk for the empty stream. *)
Definition aggregate `{RT : Runtime} (stream : list aiMessage) : aiMessage :=
  match stream with
  | [] => LangChain.createEmptyAIMessageChunk
  | chunk :: chunks => foldl concat chunk chunks
  end.

(** The text deltas of the chunks of a LangChain stream, in arrival order. *)
Definition textDeltas (stream : list aiMessage) : list string :=
  omap LangChain.extractTextDeltaFromChunk stream.

(** The tool calls of the accumulated slots whose arguments do not parse. *)
Definition failedCalls `{RT : Runtime} (toolCalls : list OpenAI.toolCall)
  : list OpenAI.toolCall :=
  filter (fun toolCall => JSON_parse (OpenAI.call_arguments toolCall) = None) toolCalls.

(** What a LangChain-based service reports during a turn over [stream]:
    [onText] and [onContentBlock], when present, are called once per text
    delta, in arrival order; [onMessage], when present, is called once, with
    the returned message, after the stream and before every call of
    [onToolUse]; nothing is logged. *)
Definition reportsOfTurn {E} (h : streamHandlers E) (stream : list aiMessage)
    (turn : list (event E) * finalMessage) : Prop :=
  textFragments turn.1 = (if onText h then textDeltas stream else [])
  /\ contentBlockEvents turn.1
     = (if onContentBlock h then map IText (textDeltas stream) else [])
  /\ messageEvents turn.1 = (if onMessage h then [turn.2] else [])
  /\ (exists before,
         turn.1 = before ++ (if onMessage h then [OnMessage turn.2] else [])
                         ++ toolEvents turn.1
         /\ toolEvents before = [] /\ messageEvents before = [])
  /\ errorCount turn.1 = 0.

(** A part of a tool result: a bare string, or a text block. *)
Definition textPartJson (part : bool * string) : json :=
  if part.1 then JStr part.2
  else JObj [("type", JStr "text"); ("text", JStr part.2)].

(** The LangChain message read back from the provider that carries the
    blocks of a stored assistant message both as content and as tool calls. *)
Definition echoOf `{RT : Runtime} (items : list contentItem)
    (stop finish delta : option string) : aiMessage :=
  {| ai_content := LArr (map LangChain.normalizeContentBlock items);
     ai_tool_calls := Some (LangChain.extractToolCalls (MArr items));
     ai_stop_reason := stop; ai_finish_reason := finish; ai_delta_text := delta |}.

Definition unansweredRequest : list OpenAI.openaiMessage :=
  [{| OpenAI.msg_role := Assistant; OpenAI.msg_content := OpenAI.CAbsent;
      OpenAI.msg_tool_calls :=
        Some [{| OpenAI.call_id := "call_a"; OpenAI.call_name := "get_cart";
                 OpenAI.call_arguments := "{}" |};
              {| OpenAI.call_id := "call_b"; OpenAI.call_name := "update_cart";
                 OpenAI.call_arguments := "{}" |}];
      OpenAI.msg_tool_call_id := None |};
   {| OpenAI.msg_role := Tool; OpenAI.msg_content := OpenAI.CStr "ok";
      OpenAI.msg_tool_calls := None; OpenAI.msg_tool_call_id := Some "call_a" |}].

(** A history that stores a tool result as a message of role tool. *)
Definition toolRoleHistory : list message :=
  [mkMessage Assistant (MArr [IToolUse "call_a" "get_cart" (JObj [])]);
   {| role_of := Tool; content_of := MStr "ok";
      tool_call_id_of := Some "call_a"; id_of := None |}].

(** [concat] merges chunks with string content by concatenating the
    strings, as LangChain's [AIMessageChunk.concat] does. *)
Definition concatenatesText `{RT : Runtime} : Prop :=
  forall (a b : aiMessage) (x y : string),
    ai_content a = LStr x -> ai_content b = LStr y ->
    ai_content (concat a b) = LStr (x +:+ y).

Definition twoTextChunks : list aiMessage :=
  [chunkOf (LStr "Hel") []; chunkOf (LStr "lo") []].

(** * Properties *)

(** ** The outbound adapter of the raw OpenAI service *)

Section AdapterFacts.
Context `{RT : Runtime}.
Import OpenAI.

Lemma foldl_setToolResult_none items m :
  hasToolResults items = false -> foldl setToolResult m items = m.
Proof.
  revert m. induction items as [|item items IH]; intros m H; [reflexivity|].
  cbn in H. apply orb_false_iff in H as [Hitem Hitems].
  cbn. destruct item; try discriminate; now apply IH.
Qed.

Lemma toolResultMapOf_none items :
  hasToolResults items = false -> toolResultMapOf items = ∅.
Proof. apply foldl_setToolResult_none. Qed.

Lemma toolMessage_empty toolCall : toolMessage ∅ toolCall = emptyToolMessage toolCall.
Proof. reflexivity. Qed.

Lemma convertMessages_cons h m rest :
  convertMessages h (m :: rest) =
  if isSystem m && negb h then convertMessages h rest
  else
    match role_of m, content_of m with
    | Assistant, MArr items =>
        assistantMessage items
          :: map (toolMessage (batchResults rest)) (toolCallsOf items)
          ++ afterReplies h items rest
    | User, MArr items =>
        if hasToolResults items then convertMessages h rest
        else userMessage (textContentOf items) :: convertMessages h rest
    | _, _ => simpleMessage m :: convertMessages h rest
    end.
Proof.
  cbn [convertMessages].
  destruct (isSystem m && negb h); [reflexivity|].
  destruct (role_of m), (content_of m) as [| |items| |]; try reflexivity.
  unfold afterReplies.
  destruct (toolCallsOf items) as [|toolCall toolCalls]; [reflexivity|].
  destruct rest as [|nextMessage rest'].
  { cbn [batchResults]. rewrite app_nil_r. reflexivity. }
  cbn [batchResults].
  destruct (role_of nextMessage), (content_of nextMessage) as [| |nextItems| |];
    try reflexivity.
  destruct (hasToolResults nextItems) eqn:Hres.
  - reflexivity.
  - rewrite (toolResultMapOf_none _ Hres). reflexivity.
Qed.

Lemma batchResults_app_assistant pre a post :
  role_of a = Assistant -> batchResults (pre ++ a :: post) = batchResults pre.
Proof.
  intros Ha. destruct pre as [|m pre]; [|reflexivity].
  cbn. now rewrite Ha.
Qed.

(** An assistant message is never consumed by the look-ahead of the message
    before it, so the conversion of a history splits in front of it. *)
Lemma convertMessages_app_assistant h pre a post :
  role_of a = Assistant ->
  convertMessages h (pre ++ a :: post)
  = convertMessages h pre ++ convertMessages h (a :: post).
Proof.
  intros Ha.
  remember (convertMessages h (a :: post)) as R eqn:HR.
  assert (Hn : forall n pre, length pre <= n ->
             convertMessages h (pre ++ a :: post) = convertMessages h pre ++ R).
  { clear pre. induction n as [|n IH]; intros pre Hlen.
    - destruct pre; [now subst R | cbn in Hlen; lia].
    - destruct pre as [|m pre]; [now subst R|].
      cbn in Hlen.
      change ((m :: pre) ++ a :: post) with (m :: (pre ++ a :: post)).
      rewrite !convertMessages_cons.
      rewrite (batchResults_app_assistant _ _ _ Ha).
      assert (Hpre : convertMessages h (pre ++ a :: post) = convertMessages h pre ++ R)
        by (apply IH; lia).
      destruct (isSystem m && negb h); [exact Hpre|].
      destruct (role_of m), (content_of m) as [| |items| |];
        try (rewrite Hpre; reflexivity).
      + destruct (hasToolResults items); [exact Hpre | now rewrite Hpre].
      + cbn [app]. f_equal. rewrite <- app_assoc. f_equal.
        unfold afterReplies.
        destruct (toolCallsOf items) as [|toolCall toolCalls]; [exact Hpre|].
        destruct pre as [|nextMessage rest'].
        { cbn [app]. rewrite Ha. now subst R. }
        cbn [app].
        destruct (role_of nextMessage), (content_of nextMessage) as [| |nextItems| |];
          try exact Hpre.
        destruct (hasToolResults nextItems); [|exact Hpre].
        rewrite <- app_assoc. f_equal. apply IH. cbn in Hlen. lia. }
  apply (Hn (length pre)). lia.
Qed.

Lemma length_toolCallsOf items :
  length (toolCallsOf items) = length (filter (fun item => isToolUse item = true) items).
Proof.
  unfold toolCallsOf.
  induction items as [|item items IH]; [reflexivity|].
  destruct item;
    first [ rewrite filter_cons_True by reflexivity
          | rewrite filter_cons_False by (cbn; congruence) ];
    cbn; congruence.
Qed.

Lemma call_ids_toolCallsOf items : map call_id (toolCallsOf items) = toolUseIds items.
Proof.
  unfold toolCallsOf, toolUseIds.
  induction items as [|item items IH]; [reflexivity|].
  destruct item; cbn; try exact IH. f_equal. exact IH.
Qed.

Lemma head_convertMessages h messages :
  head (convertMessages h messages) ≫= msg_tool_call_id = None.
Proof.
  induction messages as [|m rest IH]; [reflexivity|].
  rewrite convertMessages_cons.
  destruct (isSystem m && negb h); [exact IH|].
  destruct (role_of m), (content_of m) as [| |items| |]; try reflexivity.
  destruct (hasToolResults items); [exact IH | reflexivity].
Qed.

Lemma head_afterReplies h items rest :
  head (afterReplies h items rest) ≫= msg_tool_call_id = None.
Proof.
  unfold afterReplies.
  destruct (toolCallsOf items); [apply head_convertMessages|].
  destruct rest as [|nextMessage rest']; [reflexivity|].
  destruct (role_of nextMessage), (content_of nextMessage) as [| |nextItems| |];
    try apply head_convertMessages.
  destruct (hasToolResults nextItems); [|apply head_convertMessages].
  destruct (textContentOf nextItems); [apply head_convertMessages | reflexivity].
Qed.

Lemma foldl_setToolResult_lookup items (m : gmap string (option json)) id :
  foldl setToolResult m items !! id
  = match last (resultsWithId id items) with
    | Some content => Some content
    | None => m !! id
    end.
Proof.
  revert m. induction items as [|item items IH]; intros m; [reflexivity|].
  cbn [foldl]. rewrite IH. unfold resultsWithId. cbn [omap list_omap].
  destruct item as [| | |tool_use_id content blockId|]; cbn [setToolResult];
    try reflexivity.
  destruct (decide (tool_use_id = id)) as [->|Hne].
  - rewrite last_cons, lookup_insert_eq. now destruct (last _).
  - now rewrite lookup_insert_ne.
Qed.

Lemma batchResults_lookup post id :
  mjoin (batchResults post !! id) = correlatedResult id post.
Proof.
  unfold batchResults, correlatedResult.
  destruct post as [|nextMessage rest]; [reflexivity|].
  destruct (role_of nextMessage), (content_of nextMessage) as [| |nextItems| |];
    try reflexivity.
  unfold toolResultMapOf. rewrite foldl_setToolResult_lookup, lookup_empty.
  now destruct (last _).
Qed.

Lemma toolMessage_content results toolCall :
  msg_content (toolMessage results toolCall)
  = replyContent (mjoin (results !! call_id toolCall)).
Proof.
  unfold toolMessage, replyContent. cbn [msg_content].
  destruct (results !! call_id toolCall) as [[[]|]|]; reflexivity.
Qed.

Lemma replies_correlated post items :
  Forall2 (fun id reply =>
             msg_role reply = Tool
             /\ msg_tool_call_id reply = Some id
             /\ msg_content reply = replyContent (correlatedResult id post))
          (toolUseIds items) (map (toolMessage (batchResults post)) (toolCallsOf items)).
Proof.
  unfold toolUseIds, toolCallsOf.
  induction items as [|item items IH]; [constructor|].
  destruct item; cbn [omap list_omap toolCallOf map]; try exact IH.
  constructor; [|exact IH].
  split; [reflexivity|]. split; [reflexivity|].
  rewrite toolMessage_content. cbn [call_id]. now rewrite batchResults_lookup.
Qed.

(** C1, as the code has it. Wherever an assistant message with array content
    [items] stands in the history, the raw OpenAI adapter emits its
    converted entry and right after it one tool-role entry per tool_use
    block of [items], in the order of the blocks: as many entries as
    invocations, each carrying its invocation's id as tool_call_id and the
    content of the result with that id in the user message with array
    content that comes next (the last such result, should there be
    several), or the empty string when the next message is no such message
    or holds no such result.  The entry that follows these carries no
    tool_call_id. *)
Theorem tool_replies_follow_assistant
    (pre : list message) (items : list contentItem) (tci mid : option string)
    (post : list message) (systemInstruction : option string) :
  let a := {| role_of := Assistant; content_of := MArr items;
              tool_call_id_of := tci; id_of := mid |} in
  let history := pre ++ a :: post in
  let replies := map (toolMessage (batchResults post)) (toolCallsOf items) in
  exists after,
    buildOpenAIMessages history systemInstruction
    = (systemPrefix history systemInstruction
         ++ convertMessages (existsb isSystem history) pre)
        ++ assistantMessage items :: replies ++ after
    /\ length replies = length (filter (fun item => isToolUse item = true) items)
    /\ Forall2 (fun id reply =>
                  msg_role reply = Tool
                  /\ msg_tool_call_id reply = Some id
                  /\ msg_content reply = replyContent (correlatedResult id post))
               (toolUseIds items) replies
    /\ head after ≫= msg_tool_call_id = None.
Proof.
  intros a history replies.
  exists (afterReplies (existsb isSystem history) items post).
  split; [|split; [|split]].
  - unfold buildOpenAIMessages, history.
    rewrite convertMessages_app_assistant by reflexivity.
    rewrite (convertMessages_cons _ a post).
    now rewrite app_assoc.
  - unfold replies. rewrite length_map. apply length_toolCallsOf.
  - apply replies_correlated.
  - apply head_afterReplies.
Qed.

(** Two invocations answered by one result: two tool replies all the same,
    the second one empty. *)
Example reply_for_missing_result :
  OpenAI.buildOpenAIMessages (RT:=sampleRuntime)
    [mkMessage Assistant (MArr [IToolUse "call_a" "get_cart" (JObj []);
                                IToolUse "call_b" "update_cart" (JObj [])]);
     mkMessage User (MArr [IToolResult "call_a" (Some (JStr "ok")) None])]
    None
  = [{| msg_role := Assistant; msg_content := CAbsent;
        msg_tool_calls :=
          Some [{| call_id := "call_a"; call_name := "get_cart";
                   call_arguments := "<json>" |};
                {| call_id := "call_b"; call_name := "update_cart";
                   call_arguments := "<json>" |}];
        msg_tool_call_id := None |};
     {| msg_role := Tool; msg_content := CStr "ok";
        msg_tool_calls := None; msg_tool_call_id := Some "call_a" |};
     {| msg_role := Tool; msg_content := CStr "";
        msg_tool_calls := None; msg_tool_call_id := Some "call_b" |}].
Proof. vm_compute. reflexivity. Qed.

Lemma toolCallsOf_nonempty items :
  existsb isToolUse items = true -> toolCallsOf items <> [].
Proof.
  unfold toolCallsOf.
  induction items as [|item items IH]; [discriminate|].
  destruct item; cbn; intros H; try (now apply IH); discriminate.
Qed.

Lemma textContentOf_nonempty items :
  existsb (fun item => negb (isToolResult item)) items = true ->
  textContentOf items <> [].
Proof.
  unfold textContentOf.
  induction items as [|item items IH]; [discriminate|].
  destruct item; cbn -[filter]; intros H;
    first [ rewrite filter_cons_True by reflexivity; discriminate
          | rewrite filter_cons_False by (cbn; congruence); now apply IH ].
Qed.

(** C7. When a tool-result batch, the user message that answers the tool
    invocations of the assistant message before it, carries, besides its
    tool_result blocks, other items, the raw OpenAI adapter emits their text
    as one user-role message right after the last of the batch's tool-role
    replies: the replies come first, all of them, and the conversion of the
    later history comes after it. *)
Theorem trailing_text_after_tool_replies
    (pre : list message) (items : list contentItem) (tci mid : option string)
    (nextItems : list contentItem) (tci' mid' : option string)
    (post : list message) (systemInstruction : option string) :
  let a := {| role_of := Assistant; content_of := MArr items;
              tool_call_id_of := tci; id_of := mid |} in
  let batch := {| role_of := User; content_of := MArr nextItems;
                  tool_call_id_of := tci'; id_of := mid' |} in
  let history := pre ++ a :: batch :: post in
  let replies := map (toolMessage (toolResultMapOf nextItems)) (toolCallsOf items) in
  existsb isToolUse items = true ->
  hasToolResults nextItems = true ->
  existsb (fun item => negb (isToolResult item)) nextItems = true ->
  buildOpenAIMessages history systemInstruction
  = (systemPrefix history systemInstruction
       ++ convertMessages (existsb isSystem history) pre)
      ++ assistantMessage items :: replies
      ++ userMessage (textContentOf nextItems)
      :: convertMessages (existsb isSystem history) post
  /\ Forall (fun reply => msg_role reply = Tool) replies
  /\ msg_role (userMessage (textContentOf nextItems)) = User.
Proof.
  intros a batch history replies Hcalls Hres Htext.
  split; [|split; [|reflexivity]].
  - unfold buildOpenAIMessages, history.
    rewrite convertMessages_app_assistant by reflexivity.
    rewrite (convertMessages_cons _ a (batch :: post)).
    rewrite <- app_assoc. do 2 f_equal.
    cbn [isSystem role_of a bool_decide decide_rel andb content_of batchResults batch].
    cbn. f_equal. unfold replies. f_equal.
    unfold afterReplies.
    pose proof (toolCallsOf_nonempty _ Hcalls) as Hne.
    pose proof (textContentOf_nonempty _ Htext) as Hne'.
    destruct (toolCallsOf items); [congruence|].
    cbn [role_of content_of batch]. rewrite Hres.
    destruct (textContentOf nextItems); [congruence | reflexivity].
  - unfold replies. apply Forall_forall. intros reply Hin.
    apply list_elem_of_fmap in Hin as (toolCall & -> & _). reflexivity.
Qed.

End AdapterFacts.

(** ** The streaming aggregator of the raw OpenAI service *)

Section RawStreamFacts.
Context `{RT : Runtime} {E : Type}.
Import OpenAI.

Implicit Types (h : streamHandlers E) (st : loopState E) (stream : list chunk).
Implicit Types (toolCalls : list toolCall) (block : contentItem).

Lemma toolEvents_app (xs ys : list (event E)) :
  toolEvents (xs ++ ys) = toolEvents xs ++ toolEvents ys.
Proof. apply filter_app. Qed.

Lemma toolUseBegins_app (xs ys : list (event E)) :
  toolUseBegins (xs ++ ys) = toolUseBegins xs ++ toolUseBegins ys.
Proof. apply omap_app. Qed.

Lemma toolEvents_await (handler : contentItem -> list E) block :
  toolEvents (awaitToolUse handler block) = awaitToolUse handler block.
Proof.
  unfold toolEvents, awaitToolUse.
  rewrite filter_cons_True by reflexivity. f_equal.
  rewrite filter_app. f_equal.
  induction (handler block) as [|e es IH]; [reflexivity|].
  cbn [map]. rewrite filter_cons_True by reflexivity. now f_equal.
Qed.

Lemma toolUseBegins_await (handler : contentItem -> list E) block :
  toolUseBegins (awaitToolUse handler block) = [block].
Proof.
  unfold toolUseBegins, awaitToolUse. cbn. rewrite omap_app. cbn.
  induction (handler block) as [|e es IH]; [reflexivity|]. exact IH.
Qed.

Lemma foldl_onChunk_content h st stream :
  accumulatedContent (foldl (onChunk h) st stream)
  = accumulatedContent st ++ map IText (fragmentsOf stream).
Proof.
  revert st. induction stream as [|c stream IH]; intros st.
  - cbn. now rewrite app_nil_r.
  - cbn [foldl]. rewrite IH. unfold onChunk, fragmentsOf. cbn [omap list_omap].
    destruct (choices0 c) as [choice|]; [|reflexivity].
    cbn [accumulatedContent].
    destruct (truthy (delta_content choice)); [|now rewrite app_nil_r].
    destruct (delta_content choice); cbn; [now rewrite <- app_assoc | now rewrite app_nil_r].
Qed.

Lemma foldl_onChunk_events h st stream :
  toolEvents (emitted (foldl (onChunk h) st stream)) = toolEvents (emitted st)
  /\ toolUseBegins (emitted (foldl (onChunk h) st stream)) = toolUseBegins (emitted st)
  /\ filter (fun e => isConsoleError e = true) (emitted (foldl (onChunk h) st stream))
     = filter (fun e => isConsoleError e = true) (emitted st).
Proof.
  revert st. induction stream as [|c stream IH]; intros st; [easy|].
  cbn [foldl]. destruct (IH (onChunk h st c)) as (-> & -> & ->).
  unfold onChunk. destruct (choices0 c) as [choice|]; [|easy].
  cbn [emitted]. rewrite toolEvents_app, toolUseBegins_app, filter_app.
  destruct (truthy (delta_content choice)); [|now rewrite !app_nil_r].
  destruct (delta_content choice); [|now rewrite !app_nil_r].
  destruct (onText h), (onContentBlock h); cbn; now rewrite !app_nil_r.
Qed.

Lemma toolUseOf_isToolUse toolCalls :
  filter (fun item => isToolUse item = true) (omap toolUseOf toolCalls)
  = omap toolUseOf toolCalls.
Proof.
  induction toolCalls as [|toolCall toolCalls IH]; [reflexivity|].
  cbn [omap list_omap].
  destruct (toolUseOf toolCall) as [block|] eqn:Hparse; [|exact IH].
  rewrite filter_cons_True; [now f_equal|].
  unfold toolUseOf in Hparse.
  destruct (JSON_parse (call_arguments toolCall)); [|discriminate].
  now inversion Hparse.
Qed.

Lemma filter_isToolUse_texts (texts : list string) :
  filter (fun item => isToolUse item = true) (map IText texts) = [].
Proof.
  induction texts as [|t texts IH]; [reflexivity|].
  cbn [map]. now rewrite filter_cons_False by (cbn; congruence).
Qed.

(** The content of the returned message: the text blocks of the stream,
    then the tool calls whose arguments parse. *)
Lemma raw_final_content stream h :
  final_content (streamConversation stream h).2
  = map IText (fragmentsOf stream)
      ++ omap toolUseOf (accumulatedToolCalls (runStream h stream)).
Proof.
  unfold streamConversation, runStream. cbn [snd final_content].
  now rewrite foldl_onChunk_content.
Qed.

Lemma raw_tool_blocks stream h :
  filter (fun item => isToolUse item = true) (final_content (streamConversation stream h).2)
  = omap toolUseOf (accumulatedToolCalls (runStream h stream)).
Proof.
  rewrite raw_final_content, filter_app, filter_isToolUse_texts, toolUseOf_isToolUse.
  reflexivity.
Qed.

Lemma toolEvents_buildErrors toolCalls :
  toolEvents (buildErrors (E:=E) toolCalls) = []
  /\ toolUseBegins (buildErrors (E:=E) toolCalls) = [].
Proof.
  unfold buildErrors.
  induction toolCalls as [|toolCall toolCalls [IH1 IH2]]; [easy|].
  cbn [flat_map]. rewrite toolEvents_app, toolUseBegins_app, IH1, IH2.
  destruct (toolUseOf toolCall); easy.
Qed.

Lemma toolEvents_dispatch (handler : contentItem -> list E) toolCalls :
  let events :=
    flat_map (fun toolCall =>
                match toolUseOf toolCall with
                | Some block => awaitToolUse handler block
                | None => [ConsoleError parseErrorText]
                end) toolCalls in
  toolEvents events = flat_map (awaitToolUse handler) (omap toolUseOf toolCalls)
  /\ toolUseBegins events = omap toolUseOf toolCalls.
Proof.
  induction toolCalls as [|toolCall toolCalls [IH1 IH2]]; [easy|].
  cbn [flat_map omap list_omap]. cbn zeta in *.
  rewrite toolEvents_app, toolUseBegins_app, IH1, IH2.
  destruct (toolUseOf toolCall) as [block|]; [|easy].
  now rewrite toolEvents_await, toolUseBegins_await.
Qed.

(** The tool events of a turn and the blocks the handler was called with. *)
Lemma raw_dispatch stream h :
  let calls := omap toolUseOf (accumulatedToolCalls (runStream h stream)) in
  toolEvents (streamConversation stream h).1
  = match onToolUse h with
    | Some handler => flat_map (awaitToolUse handler) calls
    | None => []
    end
  /\ toolUseBegins (streamConversation stream h).1
     = match onToolUse h with Some _ => calls | None => [] end.
Proof.
  intros calls. unfold streamConversation. cbn [fst].
  fold (runStream h stream).
  rewrite !toolEvents_app, !toolUseBegins_app.
  destruct (foldl_onChunk_events h
              {| accumulatedContent := []; accumulatedToolCalls := [];
                 current_stop_reason := None; emitted := [] |} stream) as (H1 & H2 & _).
  fold (runStream h stream) in H1, H2. rewrite H1, H2.
  destruct (toolEvents_buildErrors (accumulatedToolCalls (runStream h stream))) as [-> ->].
  unfold dispatchToolCalls.
  destruct (onToolUse h) as [handler|].
  - destruct (toolEvents_dispatch handler (accumulatedToolCalls (runStream h stream)))
      as [-> ->].
    destruct (onMessage h); cbn; now rewrite !app_nil_r.
  - destruct (onMessage h); easy.
Qed.

End RawStreamFacts.

(** C4. When the accumulated argument text of one tool call does not parse
    at the end of a stream, the raw OpenAI service still returns its
    message: the text blocks, then the tool_use blocks of the other calls,
    each sibling whose arguments parse being kept in order and, with a
    handler, dispatched in that order; the failure is logged. *)
Theorem parse_failure_drops_one_invocation `{RT : Runtime} {E : Type}
    (stream : list OpenAI.chunk) (h : streamHandlers E)
    (before : list OpenAI.toolCall) (failing : OpenAI.toolCall)
    (after : list OpenAI.toolCall) :
  OpenAI.accumulatedToolCalls (OpenAI.runStream h stream) = before ++ failing :: after ->
  JSON_parse (OpenAI.call_arguments failing) = None ->
  let siblings := omap OpenAI.toolUseOf (before ++ after) in
  let turn := OpenAI.streamConversation stream h in
  turn.2 = {| final_content := map IText (fragmentsOf stream) ++ siblings;
              stop_reason := OpenAI.current_stop_reason (OpenAI.runStream h stream) |}
  /\ filter (fun item => isToolUse item = true) (final_content turn.2) = siblings
  /\ toolUseBegins turn.1 = match onToolUse h with Some _ => siblings | None => [] end
  /\ ConsoleError OpenAI.parseErrorText ∈ turn.1
  /\ Forall (fun toolCall =>
               match JSON_parse (OpenAI.call_arguments toolCall) with
               | Some toolArgs =>
                   IToolUse (OpenAI.call_id toolCall) (OpenAI.call_name toolCall) toolArgs
                     ∈ final_content turn.2
               | None => True
               end) (before ++ after).
Proof.
  intros Hcalls Hfail siblings turn.
  assert (Hsib : omap OpenAI.toolUseOf (OpenAI.accumulatedToolCalls (OpenAI.runStream h stream))
                 = siblings).
  { rewrite Hcalls. unfold siblings. rewrite !omap_app. f_equal.
    cbn [omap list_omap]. unfold OpenAI.toolUseOf at 1. now rewrite Hfail. }
  assert (Hcontent : final_content turn.2 = map IText (fragmentsOf stream) ++ siblings).
  { unfold turn. now rewrite raw_final_content, Hsib. }
  split; [|split; [|split; [|split]]].
  - destruct turn as [events m] eqn:Hturn. cbn [snd] in *.
    destruct m as [c r]. cbn [final_content] in Hcontent. subst c. f_equal.
    unfold turn, OpenAI.streamConversation in Hturn. now inversion Hturn.
  - unfold turn. now rewrite raw_tool_blocks.
  - unfold turn. destruct (raw_dispatch stream h) as [_ ->]. now rewrite Hsib.
  - unfold turn, OpenAI.streamConversation. cbn [fst].
    apply elem_of_app. right. apply elem_of_app. left.
    rewrite Hcalls. unfold OpenAI.buildErrors. rewrite flat_map_app.
    apply elem_of_app. right. cbn [flat_map].
    unfold OpenAI.toolUseOf at 1. rewrite Hfail. apply list_elem_of_here.
  - apply Forall_forall. intros toolCall Hin.
    destruct (JSON_parse (OpenAI.call_arguments toolCall)) as [toolArgs|] eqn:Hparse;
      [|exact I].
    rewrite Hcontent. apply elem_of_app. right. unfold siblings.
    apply list_elem_of_omap. exists toolCall. split; [exact Hin|].
    unfold OpenAI.toolUseOf. now rewrite Hparse.
Qed.

(** The fragments of two tool calls are appended slot by slot. *)
Example fragments_accumulate :
  OpenAI.accumulatedToolCalls (OpenAI.runStream allHandlers twoCallsStream)
  = [{| OpenAI.call_id := "call_a"; OpenAI.call_name := "search_shop_catalog";
        OpenAI.call_arguments := "{" |};
     {| OpenAI.call_id := "call_b"; OpenAI.call_name := "get_cart";
        OpenAI.call_arguments := "{}" |}].
Proof. reflexivity. Qed.

(** The events of that turn: both loops log the failure, the second call is
    dispatched, and [onMessage] comes last. *)
Example events_of_two_calls :
  let block := IToolUse "call_b" "get_cart" (JObj []) in
  (OpenAI.streamConversation (RT:=sampleRuntime) twoCallsStream allHandlers).1
  = [ConsoleError OpenAI.parseErrorText;
     ConsoleError OpenAI.parseErrorText;
     ToolUseBegin block; Effect "get_cart"; ToolUseEnd block;
     OnMessage {| final_content := [block]; stop_reason := None |}].
Proof. reflexivity. Qed.

Lemma parse_failure_drops_one_invocation_witness :
  let turn := OpenAI.streamConversation (RT:=sampleRuntime) twoCallsStream allHandlers in
  final_content turn.2 = [IToolUse "call_b" "get_cart" (JObj [])]
  /\ toolUseBegins turn.1 = [IToolUse "call_b" "get_cart" (JObj [])].
Proof.
  pose proof (parse_failure_drops_one_invocation (RT:=sampleRuntime)
                twoCallsStream allHandlers []
                {| OpenAI.call_id := "call_a"; OpenAI.call_name := "search_shop_catalog";
                   OpenAI.call_arguments := "{" |}
                [{| OpenAI.call_id := "call_b"; OpenAI.call_name := "get_cart";
                    OpenAI.call_arguments := "{}" |}]
                eq_refl eq_refl) as (Hmsg & _ & Hcalls & _).
  split; [now rewrite Hmsg | exact Hcalls].
Defined.

(** ** The LangChain-based services *)

Section LangChainStreamFacts.
Context `{RT : Runtime} {E : Type}.
Import LangChain.

Implicit Types (h : streamHandlers E) (stream : list aiMessage).

Lemma textEvents_not_tool h textDelta :
  toolEvents (Claude.textEvents h textDelta) = []
  /\ toolUseBegins (Claude.textEvents h textDelta) = [].
Proof.
  unfold Claude.textEvents. destruct textDelta; [|easy].
  destruct (onText h), (onContentBlock h); easy.
Qed.

Lemma claude_stream_events h (st : Claude.loopState E) stream :
  toolEvents (Claude.emitted (foldl (Claude.onChunk h) st stream))
  = toolEvents (Claude.emitted st)
  /\ toolUseBegins (Claude.emitted (foldl (Claude.onChunk h) st stream))
     = toolUseBegins (Claude.emitted st).
Proof.
  revert st. induction stream as [|c stream IH]; intros st; [easy|].
  cbn [foldl]. destruct (IH (Claude.onChunk h st c)) as [-> ->].
  unfold Claude.onChunk. cbn [Claude.emitted].
  rewrite toolEvents_app, toolUseBegins_app.
  destruct (textEvents_not_tool h (extractTextDeltaFromChunk c)) as [-> ->].
  now rewrite !app_nil_r.
Qed.

Lemma openai_stream_events h (st : OpenAILangChain.loopState E) stream :
  toolEvents (OpenAILangChain.emitted (foldl (OpenAILangChain.onChunk h) st stream))
  = toolEvents (OpenAILangChain.emitted st)
  /\ toolUseBegins (OpenAILangChain.emitted (foldl (OpenAILangChain.onChunk h) st stream))
     = toolUseBegins (OpenAILangChain.emitted st).
Proof.
  revert st. induction stream as [|c stream IH]; intros st; [easy|].
  cbn [foldl]. destruct (IH (OpenAILangChain.onChunk h st c)) as [-> ->].
  unfold OpenAILangChain.onChunk. cbn [OpenAILangChain.emitted].
  rewrite toolEvents_app, toolUseBegins_app.
  destruct (textEvents_not_tool h (extractTextDeltaFromChunk c)) as [-> ->].
  now rewrite !app_nil_r.
Qed.

Lemma claude_runStream_events h stream :
  toolEvents (Claude.emitted (Claude.runStream h stream)) = []
  /\ toolUseBegins (Claude.emitted (Claude.runStream h stream)) = [].
Proof.
  exact (claude_stream_events h
           {| Claude.aggregatedChunk := None; Claude.latestStopReason := None;
              Claude.emitted := [] |} stream).
Qed.

Lemma openai_runStream_events h stream :
  toolEvents (OpenAILangChain.emitted (OpenAILangChain.runStream h stream)) = []
  /\ toolUseBegins (OpenAILangChain.emitted (OpenAILangChain.runStream h stream)) = [].
Proof.
  exact (openai_stream_events h
           {| OpenAILangChain.aggregatedChunk := None;
              OpenAILangChain.finishReason := None;
              OpenAILangChain.emitted := [] |} stream).
Qed.



End LangChainStreamFacts.


(** C8. A stream that ends without a single event still yields a message:
    each service returns an assistant message with empty content and no
    stop reason, after calling at most [onMessage] with it. *)
Theorem empty_stream_finalizes `{RT : Runtime} {E : Type} (h : streamHandlers E) :
  let empty := {| final_content := []; stop_reason := None |} in
  let events := if onMessage h then [OnMessage empty] else [] in
  Claude.streamConversation [] h = (events, empty)
  /\ OpenAILangChain.streamConversation [] h = (events, empty)
  /\ OpenAI.streamConversation [] h = (events, empty).
Proof.
  cbn zeta.
  unfold Claude.streamConversation, OpenAILangChain.streamConversation,
    OpenAI.streamConversation, Claude.dispatchToolUse, OpenAI.dispatchToolCalls.
  cbn. destruct (onMessage h), (onToolUse h); repeat split; reflexivity.
Qed.

Section MergeFacts.
Context `{RT : Runtime}.
Import LangChain.

Lemma toolBlocks_shape (c : nat -> nat) (toolCalls : list toolCallLC) :
  Forall (fun block => isToolUse block = true)
         (imap (fun k => toolBlockOf (c k)) toolCalls).
Proof.
  revert c. induction toolCalls as [|toolCall toolCalls IH]; intros c; [constructor|].
  cbn [imap]. constructor; [reflexivity|]. exact (IH (c ∘ S)).
Qed.

Lemma filter_isText_toolUse (blocks : list contentItem) :
  Forall (fun block => isToolUse block = true) blocks ->
  filter (fun block => isText block = true) blocks = [].
Proof.
  induction 1 as [|block blocks Hb _ IH]; [reflexivity|].
  rewrite filter_cons_False; [exact IH|].
  destruct block; cbn in *; congruence.
Qed.

Lemma filter_isText_texts (texts : list string) :
  filter (fun block => isText block = true) (map IText texts) = map IText texts.
Proof.
  induction texts as [|t texts IH]; [reflexivity|].
  cbn [map]. rewrite filter_cons_True by reflexivity. now f_equal.
Qed.

Lemma filter_isText_toolUseOf (toolCalls : list OpenAI.toolCall) :
  filter (fun block => isText block = true) (omap OpenAI.toolUseOf toolCalls) = [].
Proof.
  apply filter_isText_toolUse. apply Forall_forall. intros block Hin.
  apply list_elem_of_omap in Hin as (toolCall & _ & Hparse).
  unfold OpenAI.toolUseOf in Hparse.
  destruct (JSON_parse (OpenAI.call_arguments toolCall)); [|discriminate].
  now inversion Hparse.
Qed.

End MergeFacts.

(** C2, on the raw OpenAI service: fed the fragments "Hel" and "lo" and
    then a termination signal, it returns a message with the two text
    blocks "Hel" and "lo", not with the one block "Hello". *)
Lemma text_fragments_stay_separate :
  let m := (OpenAI.streamConversation (RT:=sampleRuntime)
              [textChunk "Hel"; textChunk "lo"; finishChunk "stop"] noHandlers).2 in
  final_content m = [IText "Hel"; IText "lo"]
  /\ final_content m <> [IText "Hello"].
Proof. split; [reflexivity | discriminate]. Qed.

(** ** The outbound conversion of the LangChain-based services *)

Section BuildFacts.
Context `{RT : Runtime}.
Import LangChain.

Implicit Types (lcMessages : list lcMessage) (m : message) (messages : list message).

Lemma pushToolResult_adds lcMessages (blocks : list contentItem) :
  exists added, foldl pushToolResult lcMessages blocks = lcMessages ++ added
                /\ Forall notSystem added.
Proof.
  revert lcMessages. induction blocks as [|block blocks IH]; intros lcMessages.
  - exists []. now rewrite app_nil_r.
  - cbn [foldl]. destruct (IH (pushToolResult lcMessages block)) as (added & -> & Hadded).
    destruct block; cbn [pushToolResult]; try (now exists added).
    eexists (_ :: added). rewrite <- app_assoc. split; [reflexivity|].
    now constructor.
Qed.

Lemma pushMessage_adds lcMessages m :
  exists added, pushMessage lcMessages m = lcMessages ++ added /\ Forall notSystem added.
Proof.
  unfold pushMessage.
  destruct (role_of m).
  - exists []. now rewrite app_nil_r.
  - destruct (isToolResultContent (content_of m)).
    + destruct (content_of m); try (exists []; now rewrite app_nil_r).
      apply pushToolResult_adds.
    + eexists [_]. split; [reflexivity|]. now repeat constructor.
  - eexists [_]. split; [reflexivity|]. now repeat constructor.
  - eexists [_]. split; [reflexivity|]. now repeat constructor.
Qed.

Lemma foldl_pushMessage_adds lcMessages messages :
  exists added, foldl pushMessage lcMessages messages = lcMessages ++ added
                /\ Forall notSystem added.
Proof.
  revert lcMessages. induction messages as [|m messages IH]; intros lcMessages.
  - exists []. now rewrite app_nil_r.
  - cbn [foldl]. destruct (pushMessage_adds lcMessages m) as (added1 & -> & H1).
    destruct (IH (lcMessages ++ added1)) as (added2 & -> & H2).
    exists (added1 ++ added2). rewrite app_assoc. split; [reflexivity|].
    now apply Forall_app.
Qed.

Lemma foldl_pushMessage_drops_system lcMessages messages :
  foldl pushMessage lcMessages messages
  = foldl pushMessage lcMessages (filter (fun m => role_of m <> System) messages).
Proof.
  revert lcMessages. induction messages as [|m messages IH]; intros lcMessages;
    [reflexivity|].
  destruct (decide (role_of m = System)) as [Hsys|Hsys].
  - rewrite filter_cons_False by (intros H; now apply H).
    cbn [foldl]. unfold pushMessage at 2. rewrite Hsys. apply IH.
  - rewrite filter_cons_True by exact Hsys. cbn [foldl]. apply IH.
Qed.

(** C3, as the code has it. A non-empty system instruction always becomes
    the first message of the request and its only system message: the
    system messages stored in the history are the ones left out, whether or
    not there are any, so that the request never has two.  Without an
    instruction the request has no system message at all. *)
Theorem system_instruction_leads messages (systemInstruction : string) :
  nonEmpty systemInstruction = true ->
  (exists rest,
      buildLangChainMessages messages (Some systemInstruction)
      = SystemMessage systemInstruction :: rest
      /\ Forall notSystem rest)
  /\ buildLangChainMessages messages (Some systemInstruction)
     = buildLangChainMessages (filter (fun m => role_of m <> System) messages)
                              (Some systemInstruction)
  /\ Forall notSystem (buildLangChainMessages messages None).
Proof.
  intros Hs. unfold buildLangChainMessages. rewrite Hs. split; [|split].
  - destruct (foldl_pushMessage_adds [SystemMessage systemInstruction] messages)
      as (added & -> & Hadded).
    now exists added.
  - apply foldl_pushMessage_drops_system.
  - destruct (foldl_pushMessage_adds [] messages) as (added & -> & Hadded).
    exact Hadded.
Qed.

End BuildFacts.

Lemma system_instruction_leads_witness :
  exists rest,
    LangChain.buildLangChainMessages (RT:=sampleRuntime) storedSystemHistory
      (Some "instruction")
    = LangChain.SystemMessage "instruction" :: rest
    /\ Forall notSystem rest.
Proof.
  exact (proj1 (system_instruction_leads (RT:=sampleRuntime) storedSystemHistory
                  "instruction" eq_refl)).
Defined.

(** C3 as stated fails: with a system message stored in the history the
    instruction is prepended all the same, and it is the stored message
    that is left out. *)
Lemma system_instruction_prepended_despite_history :
  existsb OpenAI.isSystem storedSystemHistory = true
  /\ LangChain.buildLangChainMessages (RT:=sampleRuntime) storedSystemHistory
       (Some "instruction")
     = [LangChain.SystemMessage "instruction";
        LangChain.HumanMessage (LangChain.NStr "hi")]
  /\ LangChain.buildLangChainMessages (RT:=sampleRuntime) storedSystemHistory
       (Some "instruction")
     <> LangChain.buildLangChainMessages (RT:=sampleRuntime) storedSystemHistory None.
Proof. split; [reflexivity | split; [reflexivity | discriminate]]. Qed.

(** ** Finish reasons *)

(** C6, as the code has it. [mapOpenAiFinishReason] maps "stop" to
    "end_turn" and "length" to "max_tokens"; it maps "tool_calls" to null,
    the value it gives an absent or empty code, which is not "end_turn"; it
    returns any other code unchanged.  The raw service does the same for
    "stop", for "tool_calls" and for the codes that are none of the three. *)
Theorem finish_reason_normalized (code : string) :
  nonEmpty code = true -> code <> "stop" -> code <> "length" -> code <> "tool_calls" ->
  OpenAILangChain.mapOpenAiFinishReason (Some "stop") = Some "end_turn"
  /\ OpenAILangChain.mapOpenAiFinishReason (Some "length") = Some "max_tokens"
  /\ OpenAILangChain.mapOpenAiFinishReason (Some "tool_calls") = None
  /\ OpenAILangChain.mapOpenAiFinishReason None = None
  /\ OpenAILangChain.mapOpenAiFinishReason (Some "") = None
  /\ OpenAILangChain.mapOpenAiFinishReason (Some code) = Some code
  /\ OpenAI.stopReasonOf "stop" = Some "end_turn"
  /\ OpenAI.stopReasonOf "tool_calls" = None
  /\ OpenAI.stopReasonOf code = Some code.
Proof.
  intros Hne Hstop Hlength Htools.
  repeat split.
  - unfold OpenAILangChain.mapOpenAiFinishReason. rewrite Hne. cbn [negb].
    now rewrite !decide_False by assumption.
  - unfold OpenAI.stopReasonOf. now rewrite !decide_False by assumption.
Qed.

Lemma finish_reason_normalized_witness :
  OpenAILangChain.mapOpenAiFinishReason (Some "content_filter") = Some "content_filter"
  /\ OpenAI.stopReasonOf "content_filter" = Some "content_filter".
Proof.
  pose proof (finish_reason_normalized "content_filter" eq_refl
                ltac:(discriminate) ltac:(discriminate) ltac:(discriminate))
    as (_ & _ & _ & _ & _ & H1 & _ & _ & H2).
  exact (conj H1 H2).
Defined.

(** C6 as stated fails: the tool-calling code gets the value of an absent
    code, so that no reading of the results tells pending tool invocations
    from an unknown finish reason. *)
Lemma tool_calls_code_maps_to_null :
  OpenAILangChain.mapOpenAiFinishReason (Some "tool_calls")
  = OpenAILangChain.mapOpenAiFinishReason None
  /\ ~ exists decode : option string -> FinishReason,
        decode (OpenAILangChain.mapOpenAiFinishReason (Some "tool_calls"))
        = tool_invocation_pending
        /\ decode (OpenAILangChain.mapOpenAiFinishReason None) = unknown.
Proof.
  split; [reflexivity|].
  intros (decode & Hpending & Hunknown).
  change (OpenAILangChain.mapOpenAiFinishReason (Some "tool_calls")) with (@None string)
    in Hpending.
  change (OpenAILangChain.mapOpenAiFinishReason None) with (@None string) in Hunknown.
  congruence.
Qed.

(** ** Tool declarations *)

(** C9. For the OpenAI services every tool declaration becomes a function
    tool with the declaration's name, its description and its input schema
    (a JSON object) as parameters, one per declaration and in order; in all three services
    an absent or empty catalog leaves the tools field out of the request,
    and no request carries an empty tools array. *)
Theorem tools_field_of_request `{RT : Runtime}
    (messages : list message) (systemInstruction : option string)
    (name description : string) (properties : list (string * json))
    (tool : LangChain.toolDeclaration) (tools : list LangChain.toolDeclaration)
    (catalog : option (list LangChain.toolDeclaration)) :
  let declaration :=
    {| LangChain.tool_name := name; LangChain.tool_description := Some description;
       LangChain.tool_input_schema := Some (JObj properties) |} in
  (LangChain.convertTool declaration
   = {| LangChain.fn_name := name; LangChain.fn_description := description;
        LangChain.fn_parameters := JObj properties |}
   /\ OpenAI.convertTool declaration
      = {| OpenAI.fn_name := name; OpenAI.fn_description := description;
           OpenAI.fn_parameters := JObj properties |})
  /\ ((OpenAILangChain.buildRequest messages systemInstruction (Some (tool :: tools))).2
      = Some (map LangChain.convertTool (tool :: tools))
      /\ OpenAI.req_tools (OpenAI.buildRequest messages systemInstruction (Some (tool :: tools)))
         = Some (map OpenAI.convertTool (tool :: tools))
      /\ Claude.tools_field (Claude.buildRequest messages systemInstruction (Some (tool :: tools))).2
         = Some (tool :: tools))
  /\ ((OpenAILangChain.buildRequest messages systemInstruction None).2 = None
      /\ (OpenAILangChain.buildRequest messages systemInstruction (Some [])).2 = None
      /\ OpenAI.req_tools (OpenAI.buildRequest messages systemInstruction None) = None
      /\ OpenAI.req_tools (OpenAI.buildRequest messages systemInstruction (Some [])) = None
      /\ Claude.tools_field (Claude.buildRequest messages systemInstruction None).2 = None
      /\ Claude.tools_field (Claude.buildRequest messages systemInstruction (Some [])).2 = None)
  /\ ((OpenAILangChain.buildRequest messages systemInstruction catalog).2 <> Some []
      /\ OpenAI.req_tools (OpenAI.buildRequest messages systemInstruction catalog) <> Some []
      /\ Claude.tools_field (Claude.buildRequest messages systemInstruction catalog).2
         <> Some []).
Proof.
  cbn zeta. split; [|split; [|split]].
  - unfold LangChain.convertTool, OpenAI.convertTool. cbn.
    destruct description; split; reflexivity.
  - repeat split.
  - repeat split.
  - destruct catalog as [[|t ts]|]; cbn; repeat split; discriminate.
Qed.

(** ** Merging content blocks and tool calls *)

Section MergeIds.
Context `{RT : Runtime}.
Import LangChain.

Implicit Types (blocks : list contentItem) (toolCalls : list toolCallLC).

Lemma toolUseIds_app blocks1 blocks2 :
  toolUseIds (blocks1 ++ blocks2) = toolUseIds blocks1 ++ toolUseIds blocks2.
Proof. apply omap_app. Qed.

Lemma toolUseIds_toolBlocks (c : nat -> nat) toolCalls :
  Forall (fun toolCall => truthy (lc_id toolCall) = true) toolCalls ->
  toolUseIds (imap (fun k => toolBlockOf (c k)) toolCalls) = omap lc_id toolCalls.
Proof.
  intros H. revert c. induction H as [|toolCall toolCalls Hid _ IH]; intros c;
    [reflexivity|].
  cbn [imap]. unfold toolUseIds in *. cbn [omap list_omap].
  rewrite <- (IH (c ∘ S)).
  unfold toolBlockOf at 1. destruct (lc_id toolCall) as [id|]; [|discriminate].
  cbn in Hid. cbn [orElse]. now rewrite Hid.
Qed.

Lemma existingToolIds_spec blocks (id : string) :
  id ∈ existingToolIds blocks <-> id ∈ toolUseIds blocks /\ nonEmpty id = true.
Proof.
  unfold existingToolIds, toolUseIds. rewrite elem_of_list_to_set, !list_elem_of_omap.
  split.
  - intros (block & Hin & Hid). destruct block; try discriminate.
    cbn in Hid. destruct (nonEmpty id0) eqn:Hne; [|discriminate].
    inversion Hid; subst. split; [|exact Hne]. eexists. split; [exact Hin | reflexivity].
  - intros ((block & Hin & Hid) & Hne). exists block. split; [exact Hin|].
    destruct block; try discriminate. inversion Hid; subst. cbn. now rewrite Hne.
Qed.

Lemma NoDup_kept_ids (P : toolCallLC -> Prop) `{!forall x, Decision (P x)} toolCalls :
  NoDup (map lc_id toolCalls) -> NoDup (omap lc_id (filter P toolCalls)).
Proof.
  induction toolCalls as [|toolCall toolCalls IH]; [constructor|].
  cbn [map]. intros Hnd. apply NoDup_cons in Hnd as [Hnotin Hnd].
  destruct (decide (P toolCall)) as [HP|HP].
  - rewrite filter_cons_True by exact HP. cbn [omap list_omap].
    destruct (lc_id toolCall) as [id|] eqn:Hid; [|now apply IH].
    apply NoDup_cons. split; [|now apply IH].
    intros Hin. apply list_elem_of_omap in Hin as (other & Hother & Hoid).
    apply Hnotin. apply list_elem_of_fmap. exists other. split; [now symmetry|].
    now apply list_elem_of_filter in Hother as [_ ?].
  - rewrite filter_cons_False by exact HP. now apply IH.
Qed.

(** C10, as the code has it. A tool call whose id is the id of a tool_use
    block of the converted content is filtered out, so that no block is
    appended under an id the content already carries; when the tool calls
    all have an id and have pairwise different ids, and the tool_use blocks
    of the content have pairwise different ids, the tool_use blocks of the
    converted message have pairwise different ids. *)
Theorem merge_keeps_tool_use_ids_distinct (m : aiMessage) (stopReason : option string) :
  let contentBlocks := convertContentToClaudeBlocks (ai_content m) in
  let toolCalls := default [] (ai_tool_calls m) in
  let appended := toolBlocks contentBlocks (ai_tool_calls m) in
  let converted := convertAIMessageLikeToClaudeMessage (Some m) stopReason in
  NoDup (toolUseIds contentBlocks) ->
  NoDup (map lc_id toolCalls) ->
  Forall (fun toolCall => truthy (lc_id toolCall) = true) toolCalls ->
  final_content converted = contentBlocks ++ appended
  /\ toolUseIds appended
     = omap lc_id
         (filter (fun toolCall =>
                    hasId (existingToolIds contentBlocks) (lc_id toolCall) = false)
                 toolCalls)
  /\ Forall (fun id => id ∉ toolUseIds contentBlocks) (toolUseIds appended)
  /\ NoDup (toolUseIds (final_content converted)).
Proof.
  intros contentBlocks toolCalls appended converted Hcontent Hcalls Hids.
  assert (Happended :
    toolUseIds appended
    = omap lc_id
        (filter (fun toolCall =>
                   hasId (existingToolIds contentBlocks) (lc_id toolCall) = false)
                toolCalls)).
  { unfold appended, toolBlocks.
    apply (toolUseIds_toolBlocks (fun k => k)).
    apply Forall_forall. intros toolCall Hin.
    apply list_elem_of_filter in Hin as [_ Hin].
    now apply (proj1 (Forall_forall _ _) Hids). }
  assert (Hfresh : Forall (fun id => id ∉ toolUseIds contentBlocks) (toolUseIds appended)).
  { rewrite Happended. apply Forall_forall. intros id Hin Hknown.
    apply list_elem_of_omap in Hin as (toolCall & Hin & Hid).
    apply list_elem_of_filter in Hin as [Hkept Hin].
    pose proof (proj1 (Forall_forall _ _) Hids toolCall Hin) as Htruthy.
    cbn beta in Hkept, Htruthy.
    rewrite Hid in Hkept, Htruthy. cbn in Hkept, Htruthy.
    apply bool_decide_eq_false in Hkept. apply Hkept.
    now apply existingToolIds_spec. }
  split; [reflexivity|]. split; [exact Happended|]. split; [exact Hfresh|].
  change (final_content converted) with (contentBlocks ++ appended).
  rewrite toolUseIds_app. apply NoDup_app. split; [exact Hcontent|]. split.
  - intros id Hin Hin'. exact (proj1 (Forall_forall _ _) Hfresh id Hin' Hin).
  - rewrite Happended. now apply NoDup_kept_ids.
Qed.

End MergeIds.

Lemma merge_keeps_tool_use_ids_distinct_witness :
  toolUseIds (final_content
                (LangChain.convertAIMessageLikeToClaudeMessage (RT:=sampleRuntime)
                   (Some mergedCallMessage) None))
  = ["call_a"; "call_b"]
  /\ NoDup (toolUseIds (final_content
                          (LangChain.convertAIMessageLikeToClaudeMessage (RT:=sampleRuntime)
                             (Some mergedCallMessage) None))).
Proof.
  assert (Hcontent : NoDup ["call_a"]) by (apply NoDup_singleton).
  assert (Hcalls : NoDup [Some "call_a"; Some "call_b"]).
  { apply NoDup_cons. split; [|apply NoDup_singleton].
    intros Hin. apply list_elem_of_singleton in Hin. discriminate. }
  assert (Hids : Forall (fun toolCall => truthy (lc_id toolCall) = true)
                        [sampleCall "call_a" "get_cart"; sampleCall "call_b" "update_cart"])
    by (repeat constructor).
  destruct (merge_keeps_tool_use_ids_distinct (RT:=sampleRuntime) mergedCallMessage None
              Hcontent Hcalls Hids) as (_ & Happended & _ & Hdistinct).
  split; [|exact Hdistinct].
  cbn [final_content LangChain.convertAIMessageLikeToClaudeMessage].
  rewrite toolUseIds_app, Happended. cbn [mergedCallMessage chunkOf ai_content ai_tool_calls
    LangChain.convertContentToClaudeBlocks map LangChain.convertBlock default].
  vm_compute. reflexivity.
Defined.

(** C10 as stated fails: the two entries of a tool_calls list that names one
    call twice are both appended, and the converted message carries the id
    twice. *)
Lemma repeated_tool_call_appended_twice :
  toolUseIds (final_content
                (LangChain.convertAIMessageLikeToClaudeMessage (RT:=sampleRuntime)
                   (Some repeatedCallMessage) None))
  = ["call_a"; "call_a"]
  /\ ~ NoDup (toolUseIds (final_content
                            (LangChain.convertAIMessageLikeToClaudeMessage
                               (RT:=sampleRuntime) (Some repeatedCallMessage) None))).
Proof.
  assert (H : toolUseIds (final_content
                (LangChain.convertAIMessageLikeToClaudeMessage (RT:=sampleRuntime)
                   (Some repeatedCallMessage) None)) = ["call_a"; "call_a"])
    by (vm_compute; reflexivity).
  split; [exact H|]. rewrite H. intros Hnd.
  apply NoDup_cons in Hnd as [Hnotin _]. apply Hnotin. apply list_elem_of_here.
Qed.

Lemma trailing_text_after_tool_replies_witness :
  OpenAI.buildOpenAIMessages (RT:=sampleRuntime)
    [mkMessage Assistant (MArr [IToolUse "call_a" "get_cart" (JObj [])]);
     mkMessage User (MArr batchItems)]
    (Some "instruction")
  = [OpenAI.systemMessage "instruction";
     OpenAI.assistantMessage (RT:=sampleRuntime) [IToolUse "call_a" "get_cart" (JObj [])];
     {| OpenAI.msg_role := Tool; OpenAI.msg_content := OpenAI.CStr "ok";
        OpenAI.msg_tool_calls := None; OpenAI.msg_tool_call_id := Some "call_a" |};
     {| OpenAI.msg_role := User; OpenAI.msg_content := OpenAI.CStr "thanks";
        OpenAI.msg_tool_calls := None; OpenAI.msg_tool_call_id := None |}].
Proof.
  destruct (trailing_text_after_tool_replies (RT:=sampleRuntime) []
              [IToolUse "call_a" "get_cart" (JObj [])] None None
              batchItems None None [] (Some "instruction")
              eq_refl eq_refl eq_refl) as (H & _).
  etransitivity; [exact H|]. vm_compute. reflexivity.
Defined.

(** Outside the canonical histories: in this history a user message with a
    tool result and text answers no assistant message with tool invocations;
    the adapter emits nothing for it. *)
Lemma orphan_batch_text_dropped :
  OpenAI.buildOpenAIMessages (RT:=sampleRuntime) orphanBatchHistory (Some "instruction")
  = [OpenAI.systemMessage "instruction";
     {| OpenAI.msg_role := User; OpenAI.msg_content := OpenAI.CStr "hi";
        OpenAI.msg_tool_calls := None; OpenAI.msg_tool_call_id := None |}].
Proof. reflexivity. Qed.

(** * Further properties *)

(** ** The raw OpenAI adapter on whole histories *)

Section RawAdapterFacts.
Context `{RT : Runtime}.
Import OpenAI.

Implicit Types (messages rest : list message) (entries : list openaiMessage).

(** Induction that follows the conversion loop, which goes on with the
    message after the next one when it has consumed a tool-result batch. *)
Lemma conversion_ind (P : list message -> Prop) :
  P [] ->
  (forall m rest,
      P rest ->
      (forall nextMessage rest', rest = nextMessage :: rest' -> P rest') ->
      P (m :: rest)) ->
  forall messages, P messages.
Proof.
  intros Hnil Hcons messages.
  assert (H : P messages /\ (forall m rest, messages = m :: rest -> P rest)).
  { induction messages as [|m rest [IH1 IH2]].
    - split; [exact Hnil | discriminate].
    - split.
      + apply Hcons; [exact IH1 | exact IH2].
      + intros m' rest' Heq. inversion Heq; subst. exact IH1. }
  exact (proj1 H).
Qed.

Lemma answeredFrom_app pending entries1 entries2 :
  answeredFrom pending entries1 = true ->
  answeredFrom pending (entries1 ++ entries2) = answeredFrom [] entries2.
Proof.
  revert pending. induction entries1 as [|entry entries1 IH]; intros pending H.
  - cbn in H. destruct pending; [reflexivity | discriminate].
  - cbn [app answeredFrom] in *.
    destruct pending as [|id pending].
    + destruct (msg_tool_call_id entry); [discriminate|]. now apply IH.
    + destruct (msg_role entry), (msg_tool_call_id entry), (msg_tool_calls entry);
        try discriminate.
      apply andb_true_iff in H as [-> H]. now apply IH.
Qed.

Lemma answeredFrom_replies results (toolCalls : list toolCall) :
  answeredFrom (map call_id toolCalls) (map (toolMessage results) toolCalls) = true.
Proof.
  induction toolCalls as [|toolCall toolCalls IH]; [reflexivity|].
  cbn. rewrite bool_decide_eq_true_2 by reflexivity. exact IH.
Qed.

Lemma assistantMessage_calls items :
  msg_tool_call_id (assistantMessage items) = None
  /\ map call_id (default [] (msg_tool_calls (assistantMessage items)))
     = map call_id (toolCallsOf items).
Proof.
  unfold assistantMessage. cbn [msg_tool_call_id msg_tool_calls].
  split; [reflexivity|]. now destruct (toolCallsOf items).
Qed.

Lemma answeredFrom_afterReplies h items rest :
  answeredFrom [] (convertMessages h rest) = true ->
  (forall nextMessage rest', rest = nextMessage :: rest' ->
                             answeredFrom [] (convertMessages h rest') = true) ->
  answeredFrom [] (afterReplies h items rest) = true.
Proof.
  intros Hrest Hrest'. unfold afterReplies.
  destruct (toolCallsOf items); [exact Hrest|].
  destruct rest as [|nextMessage rest']; [exact Hrest|].
  destruct (role_of nextMessage), (content_of nextMessage) as [| |nextItems| |];
    try exact Hrest.
  destruct (hasToolResults nextItems); [|exact Hrest].
  destruct (textContentOf nextItems); cbn; now apply (Hrest' nextMessage rest').
Qed.

Lemma answeredFrom_convertMessages h messages :
  answeredFrom [] (convertMessages h messages) = true.
Proof.
  induction messages as [|m rest IH IH'] using conversion_ind; [reflexivity|].
  rewrite convertMessages_cons.
  destruct (isSystem m && negb h); [exact IH|].
  destruct (role_of m), (content_of m) as [| |items| |]; try exact IH.
  - destruct (hasToolResults items); exact IH.
  - destruct (assistantMessage_calls items) as [Hid Hcalls].
    cbn [answeredFrom]. rewrite Hid, Hcalls.
    rewrite answeredFrom_app by apply answeredFrom_replies.
    now apply answeredFrom_afterReplies.
Qed.

(** Every request the raw OpenAI adapter builds is answered: each assistant
    entry with tool calls is followed at once by one tool reply per call, in
    the order of the calls, and no tool reply stands anywhere else, whatever
    the history is. *)
Theorem request_is_answered messages (systemInstruction : option string) :
  answeredFrom [] (buildOpenAIMessages messages systemInstruction) = true.
Proof.
  unfold buildOpenAIMessages.
  assert (Hprefix : answeredFrom [] (systemPrefix messages systemInstruction) = true).
  { unfold systemPrefix. destruct systemInstruction as [s|]; [|reflexivity].
    destruct (negb (existsb isSystem messages) && nonEmpty s); reflexivity. }
  rewrite (answeredFrom_app [] _ _ Hprefix). apply answeredFrom_convertMessages.
Qed.

End RawAdapterFacts.

Section RawHistoryFacts.
Context `{RT : Runtime}.
Import OpenAI.

Implicit Types (messages rest : list message) (turns : list (role * string)).

Lemma convertMessages_text h turns :
  (forall turn, turn ∈ turns -> turn.1 = System -> h = true) ->
  convertMessages h (map textMessage turns) = map textEntry turns.
Proof.
  induction turns as [|[r text] turns IH]; intros Hsys; [reflexivity|].
  cbn [map]. rewrite convertMessages_cons.
  assert (Hskip : isSystem (textMessage (r, text)) && negb h = false).
  { destruct r; try reflexivity.
    rewrite (Hsys (System, text)); [reflexivity | apply list_elem_of_here | reflexivity]. }
  rewrite Hskip.
  assert (Hrest : convertMessages h (map textMessage turns) = map textEntry turns).
  { apply IH. intros turn Hin. apply Hsys. now apply list_elem_of_further. }
  destruct r; cbn [textMessage mkMessage role_of content_of fst snd];
    rewrite Hrest; reflexivity.
Qed.

Lemma existsb_isSystem_text turns :
  existsb isSystem (map textMessage turns)
  = negb (forallb (fun turn => negb (bool_decide (turn.1 = System))) turns).
Proof.
  induction turns as [|[r text] turns IH]; [reflexivity|].
  cbn [map existsb forallb]. rewrite IH. unfold isSystem, textMessage. cbn.
  destruct (bool_decide (r = System)); reflexivity.
Qed.

(** A history of messages with string content goes through the raw OpenAI
    adapter unchanged: one entry per message, in order, with the role and
    the text of the message, stored system messages included; the system
    instruction is put in front only when it is not empty and no stored
    message is a system message. *)
Theorem text_history_is_preserved turns (systemInstruction : option string) :
  buildOpenAIMessages (map textMessage turns) systemInstruction
  = match systemInstruction with
    | Some s =>
        if forallb (fun turn => negb (bool_decide (turn.1 = System))) turns && nonEmpty s
        then [textEntry (System, s)]
        else []
    | None => []
    end ++ map textEntry turns.
Proof.
  unfold buildOpenAIMessages, systemPrefix.
  rewrite existsb_isSystem_text, negb_involutive. f_equal.
  apply convertMessages_text. intros [r text] Hin Hr. cbn in Hr. subst r.
  apply negb_true_iff. apply not_true_iff_false. intros Hall.
  rewrite forallb_forall in Hall.
  apply list_elem_of_In in Hin. specialize (Hall _ Hin). discriminate.
Qed.

Lemma filter_system_replies results (toolCalls : list toolCall) :
  filter (fun entry => msg_role entry = System) (map (toolMessage results) toolCalls) = [].
Proof.
  induction toolCalls as [|toolCall toolCalls IH]; [reflexivity|].
  cbn [map]. now rewrite filter_cons_False by discriminate.
Qed.

Lemma filter_system_convertMessages h messages :
  filter (fun entry => msg_role entry = System) (convertMessages h messages)
  = if h then map simpleMessage (filter (fun m => role_of m = System) messages) else [].
Proof.
  induction messages as [|m rest IH IH'] using conversion_ind;
    [now destruct h|].
  rewrite convertMessages_cons.
  destruct (role_of m) eqn:Hrole.
  - (* a stored system message *)
    rewrite (filter_cons_True (fun m => role_of m = System)) by exact Hrole.
    unfold isSystem. rewrite bool_decide_eq_true_2 by exact Hrole.
    destruct h; cbn [negb andb]; [|exact IH].
    assert (Hsimple : forall tail,
               filter (fun entry => msg_role entry = System) (simpleMessage m :: tail)
               = simpleMessage m :: filter (fun entry => msg_role entry = System) tail).
    { intros tail. apply filter_cons_True. cbn. exact Hrole. }
    cbn [map]. destruct (content_of m); rewrite Hsimple, IH; reflexivity.
  - rewrite (filter_cons_False (fun m => role_of m = System)) by congruence.
    unfold isSystem. rewrite bool_decide_eq_false_2 by congruence. cbn [andb].
    assert (Hsimple : forall tail,
               filter (fun entry => msg_role entry = System) (simpleMessage m :: tail)
               = filter (fun entry => msg_role entry = System) tail).
    { intros tail. apply filter_cons_False. cbn. congruence. }
    destruct (content_of m) as [| |items| |]; rewrite ?Hsimple; try exact IH.
    destruct (hasToolResults items); [exact IH|].
    rewrite filter_cons_False by discriminate. exact IH.
  - rewrite (filter_cons_False (fun m => role_of m = System)) by congruence.
    unfold isSystem. rewrite bool_decide_eq_false_2 by congruence. cbn [andb].
    assert (Hsimple : forall tail,
               filter (fun entry => msg_role entry = System) (simpleMessage m :: tail)
               = filter (fun entry => msg_role entry = System) tail).
    { intros tail. apply filter_cons_False. cbn. congruence. }
    destruct (content_of m) as [| |items| |]; rewrite ?Hsimple; try exact IH.
    rewrite filter_cons_False by discriminate.
    rewrite filter_app, filter_system_replies. cbn [app].
    unfold afterReplies.
    destruct (toolCallsOf items); [exact IH|].
    destruct rest as [|nextMessage rest']; [exact IH|].
    destruct (role_of nextMessage) eqn:Hnext,
             (content_of nextMessage) as [| |nextItems| |]; try exact IH.
    destruct (hasToolResults nextItems); [|exact IH].
    rewrite filter_app, (IH' nextMessage rest' eq_refl).
    rewrite (filter_cons_False (fun m => role_of m = System)) by congruence.
    destruct (textContentOf nextItems); [reflexivity|].
    now rewrite filter_cons_False by discriminate.
  - rewrite (filter_cons_False (fun m => role_of m = System)) by congruence.
    unfold isSystem. rewrite bool_decide_eq_false_2 by congruence. cbn [andb].
    assert (Hsimple : forall tail,
               filter (fun entry => msg_role entry = System) (simpleMessage m :: tail)
               = filter (fun entry => msg_role entry = System) tail).
    { intros tail. apply filter_cons_False. cbn. congruence. }
    destruct (content_of m); rewrite Hsimple; exact IH.
Qed.

(** The system entries of a request of the raw OpenAI service: when the
    history has system messages they are these messages, each kept as it is
    and in order, and the instruction is not added to them; when it has
    none, the only system entry is the instruction, if it is not empty. *)
Theorem system_entries_of_request messages (systemInstruction : option string) :
  filter (fun entry => msg_role entry = System)
         (buildOpenAIMessages messages systemInstruction)
  = if existsb isSystem messages
    then map simpleMessage (filter (fun m => role_of m = System) messages)
    else match systemInstruction with
         | Some s => if nonEmpty s then [systemMessage s] else []
         | None => []
         end.
Proof.
  unfold buildOpenAIMessages, systemPrefix.
  rewrite filter_app, filter_system_convertMessages.
  destruct (existsb isSystem messages); cbn [negb andb].
  - now destruct systemInstruction.
  - rewrite app_nil_r. destruct systemInstruction as [s|]; [|reflexivity].
    destruct (nonEmpty s); [|reflexivity].
    now rewrite filter_cons_True by reflexivity.
Qed.

End RawHistoryFacts.

(** ** The LangChain message builder on whole histories *)

Section BuilderFacts.
Context `{RT : Runtime}.
Import LangChain.

Implicit Types (lcMessages : list lcMessage) (messages : list message).

Lemma foldl_pushMessage_chat lcMessages (turns : list (bool * string)) :
  foldl pushMessage lcMessages (map chatMessage turns)
  = lcMessages ++ map chatEntry turns.
Proof.
  revert lcMessages. induction turns as [|[fromUser text] turns IH]; intros lcMessages.
  - cbn. now rewrite app_nil_r.
  - cbn [map foldl]. rewrite IH.
    destruct fromUser; cbn; now rewrite <- app_assoc.
Qed.

(** A history of user and assistant messages with string content goes
    through the LangChain builder unchanged: one message per turn, in
    order, a human message for a user turn and an AI message without tool
    calls for an assistant turn, with the text as it is; a non-empty system
    instruction comes first. *)
Theorem chat_history_is_preserved (turns : list (bool * string))
    (systemInstruction : option string) :
  buildLangChainMessages (map chatMessage turns) systemInstruction
  = match systemInstruction with
    | Some s => if nonEmpty s then [SystemMessage s] else []
    | None => []
    end ++ map chatEntry turns.
Proof. unfold buildLangChainMessages. apply foldl_pushMessage_chat. Qed.

Lemma foldl_pushToolResult_results lcMessages
    (results : list (string * option json * option string)) :
  foldl pushToolResult lcMessages (map resultBlock results)
  = lcMessages
      ++ imap (fun k result =>
                 ToolMessage (serializeToolResultContent result.1.2)
                   (orElse (Some result.1.1)
                      (orElse result.2
                         ("tool_" +:+ pretty (length lcMessages + k)))))
              results.
Proof.
  revert lcMessages.
  induction results as [|[[tool_use_id content] id] results IH]; intros lcMessages.
  - cbn. now rewrite app_nil_r.
  - cbn [map foldl resultBlock pushToolResult fst snd]. rewrite IH.
    rewrite <- app_assoc. f_equal. cbn [app imap]. f_equal.
    + unfold toolCallIdOr. cbn [fst snd]. now rewrite Nat.add_0_r.
    + apply imap_ext. intros k result _. cbn. rewrite length_app. cbn.
      now replace (length lcMessages + 1 + k) with (length lcMessages + S k) by lia.
Qed.

(** A user message whose content is only tool results is split: after the
    messages of the history before it the builder adds one tool message per
    tool_result block, in the order of the blocks, with the serialized
    result as content; it carries the block's tool_use_id, or, when that is
    empty, the block's own id, or, when that is missing or empty too, the
    name tool_ followed by the number of messages built so far. *)
Theorem tool_results_are_split (pre : list message) (systemInstruction : option string)
    (result : string * option json * option string)
    (results : list (string * option json * option string)) :
  let built := buildLangChainMessages pre systemInstruction in
  buildLangChainMessages
    (pre ++ [mkMessage User (MArr (map resultBlock (result :: results)))])
    systemInstruction
  = built
      ++ imap (fun k result =>
                 ToolMessage (serializeToolResultContent result.1.2)
                   (orElse (Some result.1.1)
                      (orElse result.2 ("tool_" +:+ pretty (length built + k)))))
              (result :: results).
Proof.
  cbn zeta. unfold buildLangChainMessages. rewrite foldl_app. cbn [foldl].
  set (built := foldl pushMessage _ pre).
  unfold pushMessage. cbn [mkMessage role_of content_of].
  assert (Hall : isToolResultContent (MArr (map resultBlock (result :: results))) = true).
  { cbn [map isToolResultContent]. change (resultBlock result :: map resultBlock results)
      with (map resultBlock (result :: results)).
    apply forallb_forall. intros block Hin. apply in_map_iff in Hin as (r & <- & _).
    reflexivity. }
  rewrite Hall. apply foldl_pushToolResult_results.
Qed.

(** A tool_result block that has an id but no tool_use_id is answered under
    its id. *)
Example result_named_by_its_id :
  buildLangChainMessages
    [mkMessage User (MArr [IToolResult "" (Some (JStr "ok")) (Some "res_1")])] None
  = [ToolMessage "ok" "res_1"].
Proof. reflexivity. Qed.

Lemma toolCallIdOr_nonEmpty (x y : option string) lcMessages :
  nonEmpty (toolCallIdOr x y lcMessages) = true.
Proof.
  unfold toolCallIdOr.
  assert (Hy : nonEmpty (orElse y ("tool_" +:+ pretty (length lcMessages))) = true).
  { destruct y as [s|]; cbn; [|reflexivity]. destruct (nonEmpty s) eqn:Hs; [exact Hs|].
    reflexivity. }
  destruct x as [s|]; cbn; [|exact Hy].
  destruct (nonEmpty s) eqn:Hs; [exact Hs | exact Hy].
Qed.

Lemma pushToolResult_names lcMessages (blocks : list contentItem) :
  Forall namesItsCall lcMessages ->
  Forall namesItsCall (foldl pushToolResult lcMessages blocks).
Proof.
  revert lcMessages. induction blocks as [|block blocks IH]; intros lcMessages H;
    [exact H|].
  cbn [foldl]. apply IH. destruct block; cbn [pushToolResult]; try exact H.
  apply Forall_app. split; [exact H|]. constructor; [|constructor].
  apply toolCallIdOr_nonEmpty.
Qed.

Lemma pushMessage_names lcMessages m :
  Forall namesItsCall lcMessages -> Forall namesItsCall (pushMessage lcMessages m).
Proof.
  intros H. unfold pushMessage. destruct (role_of m); [exact H| | |].
  - destruct (isToolResultContent (content_of m)).
    + destruct (content_of m); try exact H. now apply pushToolResult_names.
    + apply Forall_app. split; [exact H|]. now repeat constructor.
  - apply Forall_app. split; [exact H|]. now repeat constructor.
  - apply Forall_app. split; [exact H|]. constructor; [|constructor].
    apply toolCallIdOr_nonEmpty.
Qed.

(** Every tool message the LangChain builder emits names a call: its
    tool_call_id is never empty, whatever ids the stored history has or
    lacks. *)
Theorem tool_messages_name_their_call (messages : list message)
    (systemInstruction : option string) :
  Forall namesItsCall (buildLangChainMessages messages systemInstruction).
Proof.
  unfold buildLangChainMessages.
  set (init := match systemInstruction with Some s => _ | None => _ end).
  assert (Hinit : Forall namesItsCall init).
  { unfold init. destruct systemInstruction as [s|]; [|constructor].
    destruct (nonEmpty s); now repeat constructor. }
  clearbody init. revert init Hinit.
  induction messages as [|m messages IH]; intros init Hinit; [exact Hinit|].
  cbn [foldl]. apply IH. now apply pushMessage_names.
Qed.

Lemma orEmptyObject_idempotent input :
  orEmptyObject (orEmptyObject input) = orEmptyObject input.
Proof. now destruct input. Qed.

Lemma toolCalls_of_normalized (items : list contentItem) :
  omap toolCallOfBlock items = omap toolCallOfBlock (map normalizeContentBlock items).
Proof.
  induction items as [|item items IH]; [reflexivity|].
  cbn [map omap list_omap].
  destruct item as [| |id name input| |raw]; cbn [normalizeContentBlock toolCallOfBlock];
    try exact IH.
  - rewrite orEmptyObject_idempotent. f_equal. exact IH.
  - destruct (jget "type" raw) as [[| | |s| |]|]; try exact IH.
    repeat (try exact IH;
            match goal with
            | |- context [match ?x with _ => _ end] => is_var x; destruct x
            end).
Qed.

Lemma pushMessage_calls lcMessages m :
  plainContent m ->
  Forall callsMatchContent lcMessages -> Forall callsMatchContent (pushMessage lcMessages m).
Proof.
  intros Hplain H. unfold pushMessage. destruct (role_of m); [exact H| | |].
  - destruct (isToolResultContent (content_of m)).
    + destruct (content_of m) as [| |blocks| |]; try exact H.
      clear Hplain. revert lcMessages H.
      induction blocks as [|block blocks IH]; intros lcMessages H; [exact H|].
      cbn [foldl]. apply IH. destruct block; cbn [pushToolResult]; try exact H.
      apply Forall_app. split; [exact H|]. now repeat constructor.
    + apply Forall_app. split; [exact H|]. now repeat constructor.
  - apply Forall_app. split; [exact H|]. constructor; [|constructor].
    unfold plainContent in Hplain.
    destruct (content_of m) as [| |items| |];
      try contradiction; cbn; try reflexivity.
    apply toolCalls_of_normalized.
  - apply Forall_app. split; [exact H|]. now repeat constructor.
Qed.

(** When every stored content is absent, a string or an array, the tool
    calls of each AI message the LangChain builder emits are the tool_use
    blocks of that message's content, one call per block and in order, with
    the block's id, name and input; an AI message with string content has no
    tool calls. *)
Theorem tool_calls_match_content (messages : list message)
    (systemInstruction : option string) :
  Forall plainContent messages ->
  Forall callsMatchContent (buildLangChainMessages messages systemInstruction).
Proof.
  unfold buildLangChainMessages.
  set (init := match systemInstruction with Some s => _ | None => _ end).
  assert (Hinit : Forall callsMatchContent init).
  { unfold init. destruct systemInstruction as [s|]; [|constructor].
    destruct (nonEmpty s); now repeat constructor. }
  clearbody init. revert init Hinit.
  induction messages as [|m messages IH]; intros init Hinit Hplain; [exact Hinit|].
  apply Forall_cons in Hplain as [Hm Hplain].
  cbn [foldl]. apply IH; [|exact Hplain]. now apply pushMessage_calls.
Qed.

End BuilderFacts.

Lemma tool_calls_match_content_witness :
  Forall callsMatchContent
         (LangChain.buildLangChainMessages (RT:=sampleRuntime) toolUseHistory
            (Some "instruction")).
Proof.
  apply (tool_calls_match_content (RT:=sampleRuntime) toolUseHistory (Some "instruction")).
  repeat constructor.
Defined.

(** ** The accumulation of tool-call fragments *)

Section SlotFacts.
Import OpenAI.

Implicit Types (slots : list toolCall) (deltas : list toolCallDelta).

Lemma append_assoc (a b c : string) : (a +:+ b) +:+ c = a +:+ b +:+ c.
Proof.
  induction a as [|x a IH]; [reflexivity|].
  change (String x (a +:+ b) +:+ c = String x (a +:+ b +:+ c)).
  change (String x ((a +:+ b) +:+ c) = String x (a +:+ b +:+ c)).
  now rewrite IH.
Qed.

Lemma append_empty_r (a : string) : a +:+ "" = a.
Proof.
  induction a as [|x a IH]; [reflexivity|].
  change (String x (a +:+ "") = String x a). now rewrite IH.
Qed.

Lemma join_empty_cons (part : string) (parts : list string) :
  join "" (part :: parts) = part +:+ join "" parts.
Proof.
  destruct parts as [|part' parts]; [cbn; now rewrite append_empty_r|reflexivity].
Qed.

Lemma continued_empty slot : continued slot "" "" = slot.
Proof. destruct slot. unfold continued. cbn. now rewrite !append_empty_r. Qed.

Lemma continued_continued slot name1 arguments1 name2 arguments2 :
  continued (continued slot name1 arguments1) name2 arguments2
  = continued slot (name1 +:+ name2) (arguments1 +:+ arguments2).
Proof. unfold continued. cbn. now rewrite !append_assoc. Qed.

Lemma onToolCallDelta_continue slots d :
  delta_index d < length slots ->
  onToolCallDelta slots d
  = alter (fun slot => continued slot (orElse (delta_name d) "")
                                 (orElse (delta_arguments d) ""))
          (delta_index d) slots.
Proof.
  intros Hlt. unfold onToolCallDelta.
  destruct (decide (length slots <= delta_index d)); [lia | reflexivity].
Qed.

Lemma onToolCallDelta_open slots d :
  length slots <= delta_index d -> onToolCallDelta slots d = slots ++ [openedSlot d].
Proof.
  intros Hle. unfold onToolCallDelta.
  destruct (decide (length slots <= delta_index d)); [reflexivity | lia].
Qed.

Lemma alter_alter {A} (f g : A -> A) (l : list A) i :
  alter g i (alter f i l) = alter (fun x => g (f x)) i l.
Proof.
  revert i. induction l as [|x l IH]; intros [|i]; cbn; try reflexivity.
  f_equal. apply IH.
Qed.

Lemma foldl_onToolCallDelta_same_index slots deltas (i : nat) :
  i < length slots ->
  Forall (fun d => delta_index d = i) deltas ->
  foldl onToolCallDelta slots deltas
  = alter (fun slot => continued slot (nameText deltas) (argumentsText deltas)) i slots.
Proof.
  intros Hi Hall. revert slots Hi.
  induction Hall as [|d deltas Hd _ IH]; intros slots Hi.
  - cbn. symmetry. apply list_alter_id. apply continued_empty.
  - cbn [foldl]. rewrite onToolCallDelta_continue by (rewrite Hd; exact Hi).
    rewrite IH by (rewrite length_alter; exact Hi).
    rewrite Hd, alter_alter. apply list_alter_ext; [|reflexivity].
    intros slot _. unfold nameText, argumentsText. cbn [map].
    rewrite !join_empty_cons. apply continued_continued.
Qed.

(** The fragments that continue one open slot are concatenated in arrival
    order at the end of its name and of its arguments; its id and all other
    slots stay as they are, and no slot is opened. *)
Theorem fragments_continue_one_slot slots deltas (i : nat) :
  i < length slots ->
  Forall (fun d => delta_index d = i) deltas ->
  foldl onToolCallDelta slots deltas
  = alter (fun slot =>
             {| call_id := call_id slot;
                call_name := call_name slot +:+ nameText deltas;
                call_arguments := call_arguments slot +:+ argumentsText deltas |})
          i slots
  /\ length (foldl onToolCallDelta slots deltas) = length slots.
Proof.
  intros Hi Hall.
  rewrite (foldl_onToolCallDelta_same_index slots deltas i Hi Hall).
  split; [reflexivity | apply length_alter].
Qed.

Lemma extends_refl slot : extends slot slot.
Proof. exists "", "". symmetry. apply continued_empty. Qed.

Lemma extends_trans slot1 slot2 slot3 :
  extends slot1 slot2 -> extends slot2 slot3 -> extends slot1 slot3.
Proof.
  intros (n1 & a1 & ->) (n2 & a2 & ->). eexists _, _. apply continued_continued.
Qed.

Lemma onToolCallDelta_extends slots d i slot :
  slots !! i = Some slot ->
  exists slot', onToolCallDelta slots d !! i = Some slot' /\ extends slot slot'.
Proof.
  intros Hslot. unfold onToolCallDelta.
  destruct (decide (length slots <= delta_index d)).
  - exists slot. split; [|apply extends_refl].
    rewrite lookup_app_l by (eapply lookup_lt_Some; exact Hslot). exact Hslot.
  - destruct (decide (delta_index d = i)) as [->|Hne].
    + rewrite list_lookup_alter_eq, Hslot. eexists. split; [reflexivity|].
      eexists _, _. reflexivity.
    + rewrite list_lookup_alter_ne by exact Hne. exists slot.
      split; [exact Hslot | apply extends_refl].
Qed.

Lemma foldl_onToolCallDelta_extends slots deltas i slot :
  slots !! i = Some slot ->
  exists slot', foldl onToolCallDelta slots deltas !! i = Some slot' /\ extends slot slot'.
Proof.
  revert slots slot. induction deltas as [|d deltas IH]; intros slots slot Hslot.
  - exists slot. split; [exact Hslot | apply extends_refl].
  - cbn [foldl].
    destruct (onToolCallDelta_extends slots d i slot Hslot) as (slot1 & H1 & Hext1).
    destruct (IH _ _ H1) as (slot2 & H2 & Hext2).
    exists slot2. split; [exact H2 | now apply (extends_trans _ slot1)].
Qed.

(** A delta whose index lies beyond the slots opens a slot at the end, not
    at its index, so a second delta with such an index is not merged with
    the first: each opens a slot of its own. *)
Theorem fragments_beyond_slots_are_not_merged slots (d1 d2 : toolCallDelta) :
  length slots < delta_index d1 ->
  length slots < delta_index d2 ->
  foldl onToolCallDelta slots [d1; d2] = slots ++ [openedSlot d1; openedSlot d2].
Proof.
  intros H1 H2. cbn [foldl].
  rewrite (onToolCallDelta_open slots d1) by lia.
  rewrite onToolCallDelta_open by (rewrite length_app; cbn; lia).
  now rewrite <- app_assoc.
Qed.

End SlotFacts.

Section SlotStreamFacts.
Context `{RT : Runtime} {E : Type}.
Import OpenAI.

Implicit Types (h : streamHandlers E) (st : loopState E) (stream : list chunk).

Lemma onChunk_extends h st c i slot :
  accumulatedToolCalls st !! i = Some slot ->
  exists slot', accumulatedToolCalls (onChunk h st c) !! i = Some slot'
                /\ extends slot slot'.
Proof.
  intros Hslot. unfold onChunk. destruct (choices0 c) as [choice|].
  - cbn [accumulatedToolCalls]. now apply foldl_onToolCallDelta_extends.
  - exists slot. split; [exact Hslot | apply extends_refl].
Qed.

Lemma foldl_onChunk_extends h st stream i slot :
  accumulatedToolCalls st !! i = Some slot ->
  exists slot', accumulatedToolCalls (foldl (onChunk h) st stream) !! i = Some slot'
                /\ extends slot slot'.
Proof.
  revert st slot. induction stream as [|c stream IH]; intros st slot Hslot.
  - exists slot. split; [exact Hslot | apply extends_refl].
  - cbn [foldl]. destruct (onChunk_extends h st c i slot Hslot) as (slot1 & H1 & Hext1).
    destruct (IH _ _ H1) as (slot2 & H2 & Hext2).
    exists slot2. split; [exact H2 | now apply (extends_trans _ slot1)].
Qed.

(** Accumulation only appends: a slot that is open after some chunks of a
    stream is still there, at the same position, after any further chunks,
    with the same id, and with a name and arguments that are the earlier
    ones followed by what has arrived since. *)
Theorem slots_only_grow h stream (more : list chunk) (i : nat) (slot : toolCall) :
  accumulatedToolCalls (runStream h stream) !! i = Some slot ->
  exists name arguments,
    accumulatedToolCalls (runStream h (stream ++ more)) !! i
    = Some {| call_id := call_id slot;
              call_name := call_name slot +:+ name;
              call_arguments := call_arguments slot +:+ arguments |}.
Proof.
  intros Hslot. unfold runStream in *. rewrite foldl_app.
  destruct (foldl_onChunk_extends h _ more i slot Hslot) as (slot' & H & name & args & ->).
  now exists name, args.
Qed.

End SlotStreamFacts.

(** ** What a turn of the raw OpenAI service returns and reports *)

Section RawTurnFacts.
Context `{RT : Runtime} {E : Type}.
Import OpenAI.

Implicit Types (h : streamHandlers E) (st : loopState E) (stream : list chunk).

Lemma foldl_onChunk_slots h st stream :
  accumulatedToolCalls (foldl (onChunk h) st stream)
  = foldl onToolCallDelta (accumulatedToolCalls st) (deltasOf stream).
Proof.
  revert st. induction stream as [|c stream IH]; intros st; [reflexivity|].
  cbn [foldl]. rewrite IH. unfold deltasOf. cbn [flat_map]. rewrite foldl_app.
  unfold onChunk. now destruct (choices0 c).
Qed.

Lemma foldl_onChunk_stop h st stream :
  current_stop_reason (foldl (onChunk h) st stream)
  = match last (finishCodes stream) with
    | Some code => stopReasonOf code
    | None => current_stop_reason st
    end.
Proof.
  revert st. induction stream as [|c stream IH]; intros st; [reflexivity|].
  cbn [foldl]. rewrite IH. unfold finishCodes. cbn [omap list_omap].
  unfold onChunk.
  destruct (choices0 c) as [choice|]; [|reflexivity].
  cbn [current_stop_reason].
  destruct (finish_reason choice) as [code|]; cbn [truthy]; [|reflexivity].
  destruct (nonEmpty code); [|reflexivity].
  rewrite last_cons. now destruct (last _).
Qed.

(** The message the raw OpenAI service returns is a function of the stream
    alone, whatever handlers are passed: its content is the non-empty text
    fragments, one block each, followed by the accumulated tool calls whose
    arguments parse; its stop reason comes from the last non-empty finish
    reason of the stream, earlier ones being overwritten, and is null when
    there is none. *)
Theorem raw_turn_returns h stream :
  (streamConversation stream h).2
  = {| final_content := map IText (fragmentsOf stream) ++ omap toolUseOf (slotsOf stream);
       stop_reason := match last (finishCodes stream) with
                      | Some code => stopReasonOf code
                      | None => None
                      end |}.
Proof.
  unfold streamConversation, runStream. cbn [snd].
  now rewrite foldl_onChunk_content, foldl_onChunk_slots, foldl_onChunk_stop.
Qed.

Lemma textFragments_app (xs ys : list (event E)) :
  textFragments (xs ++ ys) = textFragments xs ++ textFragments ys.
Proof. apply omap_app. Qed.

Lemma contentBlockEvents_app (xs ys : list (event E)) :
  contentBlockEvents (xs ++ ys) = contentBlockEvents xs ++ contentBlockEvents ys.
Proof. apply omap_app. Qed.

Lemma messageEvents_app (xs ys : list (event E)) :
  messageEvents (xs ++ ys) = messageEvents xs ++ messageEvents ys.
Proof. apply omap_app. Qed.

Lemma errorCount_app (xs ys : list (event E)) :
  errorCount (xs ++ ys) = errorCount xs + errorCount ys.
Proof. unfold errorCount. now rewrite filter_app, length_app. Qed.

Lemma await_is_silent (handler : contentItem -> list E) block :
  textFragments (awaitToolUse handler block) = []
  /\ contentBlockEvents (awaitToolUse handler block) = []
  /\ messageEvents (awaitToolUse handler block) = []
  /\ errorCount (awaitToolUse handler block) = 0.
Proof.
  unfold awaitToolUse, textFragments, contentBlockEvents, messageEvents, errorCount.
  cbn [omap list_omap]. rewrite !omap_app.
  rewrite filter_cons_False by (cbn; congruence). rewrite filter_app.
  rewrite (filter_cons_False _ (ToolUseEnd block)) by (cbn; congruence).
  induction (handler block) as [|e es (IH1 & IH2 & IH3 & IH4)]; [easy|].
  cbn [map omap list_omap]. rewrite filter_cons_False by (cbn; congruence).
  easy.
Qed.

Lemma stream_events h st stream :
  textFragments (emitted (foldl (onChunk h) st stream))
  = textFragments (emitted st) ++ (if onText h then fragmentsOf stream else [])
  /\ contentBlockEvents (emitted (foldl (onChunk h) st stream))
     = contentBlockEvents (emitted st)
         ++ (if onContentBlock h then map IText (fragmentsOf stream) else [])
  /\ messageEvents (emitted (foldl (onChunk h) st stream)) = messageEvents (emitted st)
  /\ errorCount (emitted (foldl (onChunk h) st stream)) = errorCount (emitted st).
Proof.
  revert st. induction stream as [|c stream IH]; intros st.
  - cbn. destruct (onText h), (onContentBlock h); now rewrite !app_nil_r.
  - cbn [foldl]. destruct (IH (onChunk h st c)) as (-> & -> & -> & ->).
    unfold onChunk, fragmentsOf. cbn [omap list_omap].
    destruct (choices0 c) as [choice|]; [|easy].
    cbn [emitted].
    rewrite textFragments_app, contentBlockEvents_app, messageEvents_app, errorCount_app.
    destruct (delta_content choice) as [text|]; cbn [truthy];
      [|now rewrite !app_nil_r, Nat.add_0_r].
    destruct (nonEmpty text); [|now rewrite !app_nil_r, Nat.add_0_r].
    destruct (onText h), (onContentBlock h); cbn;
      rewrite <- ?app_assoc, ?app_nil_r, ?Nat.add_0_r; easy.
Qed.

Lemma runStream_events h stream :
  textFragments (emitted (runStream h stream)) = (if onText h then fragmentsOf stream else [])
  /\ contentBlockEvents (emitted (runStream h stream))
     = (if onContentBlock h then map IText (fragmentsOf stream) else [])
  /\ messageEvents (emitted (runStream h stream)) = []
  /\ errorCount (emitted (runStream h stream)) = 0.
Proof.
  exact (stream_events h
           {| accumulatedContent := []; accumulatedToolCalls := [];
              current_stop_reason := None; emitted := [] |} stream).
Qed.

Lemma buildErrors_events (toolCalls : list toolCall) :
  textFragments (buildErrors (E:=E) toolCalls) = []
  /\ contentBlockEvents (buildErrors (E:=E) toolCalls) = []
  /\ messageEvents (buildErrors (E:=E) toolCalls) = []
  /\ errorCount (buildErrors (E:=E) toolCalls) = length (failedCalls toolCalls).
Proof.
  unfold buildErrors, failedCalls.
  induction toolCalls as [|toolCall toolCalls (IH1 & IH2 & IH3 & IH4)]; [easy|].
  cbn [flat_map].
  rewrite textFragments_app, contentBlockEvents_app, messageEvents_app, errorCount_app.
  rewrite IH1, IH2, IH3, IH4. unfold toolUseOf.
  destruct (JSON_parse (call_arguments toolCall)) eqn:Hparse.
  - rewrite filter_cons_False by (rewrite Hparse; discriminate). easy.
  - rewrite filter_cons_True by exact Hparse. easy.
Qed.

Lemma dispatch_events h (toolCalls : list toolCall) :
  textFragments (dispatchToolCalls h toolCalls) = []
  /\ contentBlockEvents (dispatchToolCalls h toolCalls) = []
  /\ messageEvents (dispatchToolCalls h toolCalls) = []
  /\ errorCount (dispatchToolCalls h toolCalls)
     = match onToolUse h with
       | Some _ => length (failedCalls toolCalls)
       | None => 0
       end.
Proof.
  unfold dispatchToolCalls, failedCalls. destruct (onToolUse h) as [handler|]; [|easy].
  induction toolCalls as [|toolCall toolCalls (IH1 & IH2 & IH3 & IH4)]; [easy|].
  cbn [flat_map].
  rewrite textFragments_app, contentBlockEvents_app, messageEvents_app, errorCount_app.
  rewrite IH1, IH2, IH3, IH4. unfold toolUseOf.
  destruct (JSON_parse (call_arguments toolCall)) eqn:Hparse.
  - rewrite filter_cons_False by (rewrite Hparse; discriminate).
    now destruct (await_is_silent handler
                    (IToolUse (call_id toolCall) (call_name toolCall) j))
      as (-> & -> & -> & ->).
  - rewrite filter_cons_True by exact Hparse. easy.
Qed.

Lemma raw_text_fragments h stream :
  textFragments (streamConversation stream h).1
  = (if onText h then fragmentsOf stream else []).
Proof.
  unfold streamConversation. cbn [fst].
  rewrite !textFragments_app.
  rewrite (proj1 (runStream_events h stream)).
  rewrite (proj1 (buildErrors_events _)), (proj1 (dispatch_events h _)).
  destruct (onMessage h); cbn; now rewrite ?app_nil_r.
Qed.

(** What the raw OpenAI service reports during a turn. [onText] and
    [onContentBlock], when present, are called once per non-empty text
    fragment, in arrival order, so that what was streamed is what the text
    blocks of the returned message hold; [onMessage], when present, is
    called once, with the returned message, and it is the last thing the
    turn does, after every tool dispatch; each tool call whose arguments do
    not parse is logged once, and once more when [onToolUse] is present. *)
Theorem raw_turn_reports h stream :
  let turn := streamConversation stream h in
  textFragments turn.1 = (if onText h then fragmentsOf stream else [])
  /\ contentBlockEvents turn.1
     = (if onContentBlock h
        then filter (fun block => isText block = true) (final_content turn.2)
        else [])
  /\ messageEvents turn.1 = (if onMessage h then [turn.2] else [])
  /\ (exists before,
         turn.1 = before ++ (if onMessage h then [OnMessage turn.2] else [])
         /\ messageEvents before = [])
  /\ errorCount turn.1
     = length (failedCalls (slotsOf stream))
       * match onToolUse h with Some _ => 2 | None => 1 end.
Proof.
  intros turn.
  assert (Htext : filter (fun block => isText block = true) (final_content turn.2)
                  = map IText (fragmentsOf stream)).
  { unfold turn.
    rewrite raw_final_content, filter_app, filter_isText_texts, filter_isText_toolUseOf.
    apply app_nil_r. }
  rewrite Htext.
  unfold turn, streamConversation. cbn [fst snd].
  set (m := {| final_content := _; stop_reason := _ |}).
  destruct (runStream_events h stream) as (Ht & Hc & Hm & He).
  assert (Hslots : accumulatedToolCalls (runStream h stream) = slotsOf stream).
  { unfold runStream. now rewrite foldl_onChunk_slots. }
  rewrite Hslots.
  destruct (buildErrors_events (slotsOf stream)) as (Bt & Bc & Bm & Be).
  destruct (dispatch_events h (slotsOf stream)) as (Dt & Dc & Dm & De).
  rewrite !textFragments_app, !contentBlockEvents_app, !messageEvents_app, !errorCount_app.
  rewrite Ht, Hc, Hm, He, Bt, Bc, Bm, Be, Dt, Dc, Dm, De.
  cbn [app].
  split; [|split; [|split; [|split]]].
  - destruct (onMessage h); cbn; now rewrite ?app_nil_r.
  - destruct (onMessage h); cbn; now rewrite ?app_nil_r.
  - now destruct (onMessage h).
  - eexists. rewrite !app_assoc. split; [reflexivity|].
    rewrite !messageEvents_app, Hm, Bm, Dm. reflexivity.
  - assert (Hnone : errorCount (if onMessage h then [@OnMessage E m] else []) = 0)
      by now destruct (onMessage h).
    rewrite Hnone. destruct (onToolUse h); lia.
Qed.

End RawTurnFacts.

(** ** What a turn of the LangChain-based services returns and reports *)

Section LangChainTurnFacts.
Context `{RT : Runtime} {E : Type}.
Import LangChain.

Implicit Types (h : streamHandlers E) (stream : list aiMessage).

Lemma claude_aggregated h (st : Claude.loopState E) stream a :
  Claude.aggregatedChunk st = Some a ->
  Claude.aggregatedChunk (foldl (Claude.onChunk h) st stream) = Some (foldl concat a stream).
Proof.
  revert st a. induction stream as [|c stream IH]; intros st a Ha; [exact Ha|].
  cbn [foldl]. apply IH. unfold Claude.onChunk. cbn [Claude.aggregatedChunk].
  now rewrite Ha.
Qed.

Lemma openai_aggregated h (st : OpenAILangChain.loopState E) stream a :
  OpenAILangChain.aggregatedChunk st = Some a ->
  OpenAILangChain.aggregatedChunk (foldl (OpenAILangChain.onChunk h) st stream)
  = Some (foldl concat a stream).
Proof.
  revert st a. induction stream as [|c stream IH]; intros st a Ha; [exact Ha|].
  cbn [foldl]. apply IH. unfold OpenAILangChain.onChunk.
  cbn [OpenAILangChain.aggregatedChunk]. now rewrite Ha.
Qed.

Lemma claude_final_chunk h stream :
  default createEmptyAIMessageChunk (Claude.aggregatedChunk (Claude.runStream h stream))
  = aggregate stream.
Proof.
  unfold Claude.runStream. destruct stream as [|c stream]; [reflexivity|].
  cbn [foldl aggregate]. now rewrite (claude_aggregated h _ stream c).
Qed.

Lemma openai_final_chunk h stream :
  default createEmptyAIMessageChunk
          (OpenAILangChain.aggregatedChunk (OpenAILangChain.runStream h stream))
  = aggregate stream.
Proof.
  unfold OpenAILangChain.runStream. destruct stream as [|c stream]; [reflexivity|].
  cbn [foldl aggregate]. now rewrite (openai_aggregated h _ stream c).
Qed.

Lemma claude_latest h (st : Claude.loopState E) stream :
  Claude.latestStopReason (foldl (Claude.onChunk h) st stream)
  = match last (stopReasons stream) with
    | Some reason => Some reason
    | None => Claude.latestStopReason st
    end.
Proof.
  revert st. induction stream as [|c stream IH]; intros st; [reflexivity|].
  cbn [foldl]. rewrite IH. unfold stopReasons. cbn [omap list_omap].
  unfold Claude.onChunk. cbn [Claude.latestStopReason].
  destruct (ai_stop_reason c) as [reason|]; cbn [truthy]; [|reflexivity].
  destruct (nonEmpty reason); [|reflexivity].
  rewrite last_cons. now destruct (last _).
Qed.

Lemma openai_latest h (st : OpenAILangChain.loopState E) stream :
  OpenAILangChain.finishReason (foldl (OpenAILangChain.onChunk h) st stream)
  = match last (finishReasons stream) with
    | Some reason => Some reason
    | None => OpenAILangChain.finishReason st
    end.
Proof.
  revert st. induction stream as [|c stream IH]; intros st; [reflexivity|].
  cbn [foldl]. rewrite IH. unfold finishReasons. cbn [omap list_omap].
  unfold OpenAILangChain.onChunk. cbn [OpenAILangChain.finishReason].
  destruct (ai_finish_reason c) as [reason|]; cbn [truthy]; [|reflexivity].
  destruct (nonEmpty reason); [|reflexivity].
  rewrite last_cons. now destruct (last _).
Qed.

(** The message a LangChain-based service returns is a function of the
    stream alone, whatever handlers are passed: it is the conversion of the
    chunks merged from left to right (of the blank chunk for the empty
    stream).  The Claude service gives it the last non-empty stop reason
    seen on a chunk; the OpenAI service gives it the normalized last
    non-empty finish reason; when that is null, the stop reason is the one
    the merged chunk carries. *)
Theorem langchain_turn_returns h stream :
  let merged := aggregate stream in
  ((Claude.streamConversation stream h).2
   = convertAIMessageLikeToClaudeMessage (Some merged) (last (stopReasons stream))
   /\ stop_reason (Claude.streamConversation stream h).2
      = match last (stopReasons stream) with
        | Some reason => Some reason
        | None => ai_stop_reason merged
        end)
  /\ ((OpenAILangChain.streamConversation stream h).2
      = convertAIMessageLikeToClaudeMessage (Some merged)
          (OpenAILangChain.mapOpenAiFinishReason (last (finishReasons stream)))
      /\ stop_reason (OpenAILangChain.streamConversation stream h).2
         = match OpenAILangChain.mapOpenAiFinishReason (last (finishReasons stream)) with
           | Some reason => Some reason
           | None => ai_stop_reason merged
           end).
Proof.
  cbn zeta.
  assert (HC : (Claude.streamConversation stream h).2
               = convertAIMessageLikeToClaudeMessage (Some (aggregate stream))
                   (last (stopReasons stream))).
  { unfold Claude.streamConversation. cbn [snd]. rewrite claude_final_chunk.
    unfold Claude.runStream. rewrite claude_latest. cbn [Claude.latestStopReason].
    now destruct (last (stopReasons stream)). }
  assert (HO : (OpenAILangChain.streamConversation stream h).2
               = convertAIMessageLikeToClaudeMessage (Some (aggregate stream))
                   (OpenAILangChain.mapOpenAiFinishReason (last (finishReasons stream)))).
  { unfold OpenAILangChain.streamConversation. cbn [snd]. rewrite openai_final_chunk.
    unfold OpenAILangChain.runStream. rewrite openai_latest.
    cbn [OpenAILangChain.finishReason]. now destruct (last (finishReasons stream)). }
  rewrite HC, HO. repeat split.
Qed.

Lemma extractTextDelta_nonEmpty (chunk : aiMessage) (text : string) :
  extractTextDeltaFromChunk chunk = Some text -> nonEmpty text = true.
Proof.
  unfold extractTextDeltaFromChunk.
  assert (Hdelta : forall t,
             match ai_delta_text chunk with
             | Some s => if nonEmpty s then Some s else None
             | None => None
             end = Some t -> nonEmpty t = true).
  { intros t. destruct (ai_delta_text chunk) as [s|]; [|discriminate].
    destruct (nonEmpty s) eqn:Hs; [|discriminate]. now intros [= <-]. }
  destruct (ai_content chunk) as [|s|blocks|block]; try apply Hdelta.
  - destruct (nonEmpty s) eqn:Hs; [|discriminate]. now intros [= <-].
  - destruct (nonEmpty (join "" (omap textOf blocks))) eqn:Hs; [|apply Hdelta].
    now intros [= <-].
Qed.

Lemma textEvents_reports h (textDelta : option string) :
  textFragments (Claude.textEvents h textDelta)
  = (if onText h then option_list textDelta else [])
  /\ contentBlockEvents (Claude.textEvents h textDelta)
     = (if onContentBlock h then map IText (option_list textDelta) else [])
  /\ messageEvents (Claude.textEvents h textDelta) = []
  /\ errorCount (Claude.textEvents h textDelta) = 0.
Proof.
  unfold Claude.textEvents. destruct textDelta as [text|];
    destruct (onText h), (onContentBlock h); easy.
Qed.

Lemma textDeltas_cons (c : aiMessage) stream :
  textDeltas (c :: stream) = option_list (extractTextDeltaFromChunk c) ++ textDeltas stream.
Proof. unfold textDeltas. cbn. now destruct (extractTextDeltaFromChunk c). Qed.

Lemma claude_stream_reports h (st : Claude.loopState E) stream :
  textFragments (Claude.emitted (foldl (Claude.onChunk h) st stream))
  = textFragments (Claude.emitted st) ++ (if onText h then textDeltas stream else [])
  /\ contentBlockEvents (Claude.emitted (foldl (Claude.onChunk h) st stream))
     = contentBlockEvents (Claude.emitted st)
         ++ (if onContentBlock h then map IText (textDeltas stream) else [])
  /\ messageEvents (Claude.emitted (foldl (Claude.onChunk h) st stream))
     = messageEvents (Claude.emitted st)
  /\ errorCount (Claude.emitted (foldl (Claude.onChunk h) st stream))
     = errorCount (Claude.emitted st).
Proof.
  revert st. induction stream as [|c stream IH]; intros st.
  - cbn. destruct (onText h), (onContentBlock h); now rewrite !app_nil_r.
  - cbn [foldl]. destruct (IH (Claude.onChunk h st c)) as (-> & -> & -> & ->).
    unfold Claude.onChunk. cbn [Claude.emitted].
    rewrite textFragments_app, contentBlockEvents_app, messageEvents_app, errorCount_app.
    destruct (textEvents_reports h (extractTextDeltaFromChunk c)) as (-> & -> & -> & ->).
    rewrite textDeltas_cons, app_nil_r, Nat.add_0_r.
    destruct (onText h), (onContentBlock h);
      rewrite ?map_app, <- ?app_assoc, ?app_nil_r; easy.
Qed.

Lemma openai_stream_reports h (st : OpenAILangChain.loopState E) stream :
  textFragments (OpenAILangChain.emitted (foldl (OpenAILangChain.onChunk h) st stream))
  = textFragments (OpenAILangChain.emitted st)
      ++ (if onText h then textDeltas stream else [])
  /\ contentBlockEvents
       (OpenAILangChain.emitted (foldl (OpenAILangChain.onChunk h) st stream))
     = contentBlockEvents (OpenAILangChain.emitted st)
         ++ (if onContentBlock h then map IText (textDeltas stream) else [])
  /\ messageEvents (OpenAILangChain.emitted (foldl (OpenAILangChain.onChunk h) st stream))
     = messageEvents (OpenAILangChain.emitted st)
  /\ errorCount (OpenAILangChain.emitted (foldl (OpenAILangChain.onChunk h) st stream))
     = errorCount (OpenAILangChain.emitted st).
Proof.
  revert st. induction stream as [|c stream IH]; intros st.
  - cbn. destruct (onText h), (onContentBlock h); now rewrite !app_nil_r.
  - cbn [foldl]. destruct (IH (OpenAILangChain.onChunk h st c)) as (-> & -> & -> & ->).
    unfold OpenAILangChain.onChunk. cbn [OpenAILangChain.emitted].
    rewrite textFragments_app, contentBlockEvents_app, messageEvents_app, errorCount_app.
    destruct (textEvents_reports h (extractTextDeltaFromChunk c)) as (-> & -> & -> & ->).
    rewrite textDeltas_cons, app_nil_r, Nat.add_0_r.
    destruct (onText h), (onContentBlock h);
      rewrite ?map_app, <- ?app_assoc, ?app_nil_r; easy.
Qed.

Lemma dispatchToolUse_silent h (content : list contentItem) :
  textFragments (Claude.dispatchToolUse h content) = []
  /\ contentBlockEvents (Claude.dispatchToolUse h content) = []
  /\ messageEvents (Claude.dispatchToolUse h content) = []
  /\ errorCount (Claude.dispatchToolUse h content) = 0
  /\ toolEvents (Claude.dispatchToolUse h content) = Claude.dispatchToolUse h content.
Proof.
  unfold Claude.dispatchToolUse. destruct (onToolUse h) as [handler|]; [|easy].
  induction (filter (fun b => isToolUse b = true) content)
    as [|block blocks (IH1 & IH2 & IH3 & IH4 & IH5)]; [easy|].
  cbn [flat_map].
  rewrite textFragments_app, contentBlockEvents_app, messageEvents_app, errorCount_app,
    toolEvents_app, IH1, IH2, IH3, IH4, IH5, toolEvents_await.
  now destruct (await_is_silent handler block) as (-> & -> & -> & ->).
Qed.

Lemma reportsOfTurn_intro h stream (before : list (event E)) (m : finalMessage) :
  textFragments before = (if onText h then textDeltas stream else []) ->
  contentBlockEvents before
  = (if onContentBlock h then map IText (textDeltas stream) else []) ->
  messageEvents before = [] -> errorCount before = 0 -> toolEvents before = [] ->
  reportsOfTurn h stream
    (before ++ (if onMessage h then [OnMessage m] else [])
            ++ Claude.dispatchToolUse h (final_content m), m).
Proof.
  intros Ht Hc Hm He Htool. unfold reportsOfTurn. cbn [fst snd].
  destruct (dispatchToolUse_silent h (final_content m)) as (Dt & Dc & Dm & De & Dtool).
  rewrite !textFragments_app, !contentBlockEvents_app, !messageEvents_app,
    !errorCount_app, !toolEvents_app.
  rewrite Ht, Hc, Hm, He, Htool, Dt, Dc, Dm, De, Dtool.
  assert (Hmsg : toolEvents (if onMessage h then [@OnMessage E m] else []) = [])
    by now destruct (onMessage h).
  rewrite Hmsg. cbn [app].
  split; [|split; [|split; [|split]]].
  - destruct (onMessage h); cbn; now rewrite ?app_nil_r.
  - destruct (onMessage h); cbn; now rewrite ?app_nil_r.
  - now destruct (onMessage h).
  - exists before. now repeat split.
  - now destruct (onMessage h).
Qed.

(** What the LangChain-based services report during a turn. [onText] and
    [onContentBlock], when present, are called once per text delta of a
    chunk, in arrival order; [onMessage], when present, is called once,
    with the returned message, after the whole stream and before the first
    call of [onToolUse]; nothing is logged. *)
Theorem langchain_turn_reports h stream :
  reportsOfTurn h stream (Claude.streamConversation stream h)
  /\ reportsOfTurn h stream (OpenAILangChain.streamConversation stream h).
Proof.
  split.
  - unfold Claude.streamConversation.
    destruct (claude_stream_reports h
                {| Claude.aggregatedChunk := None; Claude.latestStopReason := None;
                   Claude.emitted := [] |} stream) as (Ht & Hc & Hm & He).
    apply reportsOfTurn_intro; try assumption. apply claude_runStream_events.
  - unfold OpenAILangChain.streamConversation.
    destruct (openai_stream_reports h
                {| OpenAILangChain.aggregatedChunk := None;
                   OpenAILangChain.finishReason := None;
                   OpenAILangChain.emitted := [] |} stream) as (Ht & Hc & Hm & He).
    apply reportsOfTurn_intro; try assumption. apply openai_runStream_events.
Qed.

Lemma langchain_text_fragments h stream :
  textFragments (Claude.streamConversation stream h).1
  = (if onText h then textDeltas stream else [])
  /\ textFragments (OpenAILangChain.streamConversation stream h).1
     = (if onText h then textDeltas stream else []).
Proof.
  unfold Claude.streamConversation, OpenAILangChain.streamConversation,
    Claude.runStream, OpenAILangChain.runStream. cbn [fst].
  rewrite !textFragments_app.
  rewrite !(proj1 (dispatchToolUse_silent h _)).
  rewrite (proj1 (claude_stream_reports h
                    {| Claude.aggregatedChunk := None; Claude.latestStopReason := None;
                       Claude.emitted := [] |} stream)).
  rewrite (proj1 (openai_stream_reports h
                    {| OpenAILangChain.aggregatedChunk := None;
                       OpenAILangChain.finishReason := None;
                       OpenAILangChain.emitted := [] |} stream)).
  cbn [Claude.emitted OpenAILangChain.emitted app].
  destruct (onMessage h); cbn; now rewrite ?app_nil_r.
Qed.

(** No service ever calls [onText] with an empty fragment. *)
Theorem text_fragments_are_never_empty h stream (rawStream : list OpenAI.chunk) :
  Forall (fun fragment => nonEmpty fragment = true)
         (textFragments (Claude.streamConversation stream h).1)
  /\ Forall (fun fragment => nonEmpty fragment = true)
            (textFragments (OpenAILangChain.streamConversation stream h).1)
  /\ Forall (fun fragment => nonEmpty fragment = true)
            (textFragments (OpenAI.streamConversation rawStream h).1).
Proof.
  destruct (langchain_text_fragments h stream) as (-> & ->).
  rewrite raw_text_fragments.
  assert (Hlc : Forall (fun fragment => nonEmpty fragment = true) (textDeltas stream)).
  { apply Forall_forall. intros text Hin. unfold textDeltas in Hin.
    apply list_elem_of_omap in Hin as (chunk & _ & Hchunk).
    now apply (extractTextDelta_nonEmpty chunk). }
  assert (Hraw : Forall (fun fragment => nonEmpty fragment = true) (fragmentsOf rawStream)).
  { apply Forall_forall. intros text Hin. unfold fragmentsOf in Hin.
    apply list_elem_of_omap in Hin as (chunk & _ & Hchunk).
    destruct (OpenAI.choices0 chunk) as [choice|]; [|discriminate].
    destruct (OpenAI.delta_content choice) as [t|]; [|discriminate].
    cbn in Hchunk. destruct (nonEmpty t) eqn:Ht; [|discriminate].
    now inversion Hchunk; subst. }
  destruct (onText h); repeat split; (assumption || constructor).
Qed.

End LangChainTurnFacts.

(** ** Opening and continuing a slot *)

Section AssemblyFacts.
Import OpenAI.

(** A delta at the first free index opens a slot there, and the deltas that
    follow at that index are appended to it: the slot has the id of the
    first delta, and as name and arguments the fragments of all of them
    concatenated in arrival order.  The slots before it are untouched. *)
Theorem call_is_assembled_from_fragments (slots : list toolCall)
    (first : toolCallDelta) (more : list toolCallDelta) :
  delta_index first = length slots ->
  Forall (fun d => delta_index d = length slots) more ->
  foldl onToolCallDelta slots (first :: more)
  = slots ++ [{| call_id := orElse (delta_id first) "";
                 call_name := nameText (first :: more);
                 call_arguments := argumentsText (first :: more) |}].
Proof.
  intros Hfirst Hmore. cbn [foldl].
  rewrite onToolCallDelta_open by lia.
  rewrite (foldl_onToolCallDelta_same_index _ more (length slots))
    by (rewrite ?length_app; cbn; (lia || exact Hmore)).
  replace (length slots) with (length slots + 0) at 1 by lia.
  rewrite alter_app_r. cbn [alter list_alter]. f_equal. f_equal.
  unfold continued, openedSlot, nameText, argumentsText. cbn [map call_id call_name
    call_arguments]. now rewrite !join_empty_cons.
Qed.

(** The checker of answered requests is not vacuous: it rejects a request
    in which one of two tool calls has no reply. *)
Example unanswered_request_is_rejected : answeredFrom [] unansweredRequest = false.
Proof. reflexivity. Qed.

End AssemblyFacts.

Lemma call_is_assembled_from_fragments_witness :
  foldl OpenAI.onToolCallDelta []
        [toolDelta 0 (Some "call_a") (Some "search") None;
         toolDelta 0 None None (Some "{");
         toolDelta 0 None None (Some "}")]
  = [{| OpenAI.call_id := "call_a"; OpenAI.call_name := "search";
        OpenAI.call_arguments := "{}" |}].
Proof.
  apply (call_is_assembled_from_fragments []
           (toolDelta 0 (Some "call_a") (Some "search") None)
           [toolDelta 0 None None (Some "{"); toolDelta 0 None None (Some "}")]).
  - reflexivity.
  - repeat constructor.
Defined.

Lemma fragments_continue_one_slot_witness :
  foldl OpenAI.onToolCallDelta
        [{| OpenAI.call_id := "call_a"; OpenAI.call_name := "sea";
            OpenAI.call_arguments := "" |}]
        [toolDelta 0 None (Some "rch") (Some "{"); toolDelta 0 None None (Some "}")]
  = [{| OpenAI.call_id := "call_a"; OpenAI.call_name := "search";
        OpenAI.call_arguments := "{}" |}].
Proof.
  refine (proj1 (fragments_continue_one_slot
           [{| OpenAI.call_id := "call_a"; OpenAI.call_name := "sea";
               OpenAI.call_arguments := "" |}]
           [toolDelta 0 None (Some "rch") (Some "{"); toolDelta 0 None None (Some "}")] 0
           _ _)).
  - cbn. lia.
  - repeat constructor.
Defined.

Lemma fragments_beyond_slots_are_not_merged_witness :
  foldl OpenAI.onToolCallDelta []
        [toolDelta 2 (Some "call_c") (Some "search") None;
         toolDelta 2 None None (Some "{}")]
  = [{| OpenAI.call_id := "call_c"; OpenAI.call_name := "search";
        OpenAI.call_arguments := "" |};
     {| OpenAI.call_id := ""; OpenAI.call_name := ""; OpenAI.call_arguments := "{}" |}].
Proof.
  apply (fragments_beyond_slots_are_not_merged []
           (toolDelta 2 (Some "call_c") (Some "search") None)
           (toolDelta 2 None None (Some "{}"))); cbn; lia.
Defined.

Lemma slots_only_grow_witness :
  exists name arguments,
    OpenAI.accumulatedToolCalls
      (OpenAI.runStream allHandlers
         ([toolChunk [toolDelta 0 (Some "call_a") (Some "search") (Some "{")]]
            ++ [toolChunk [toolDelta 0 None None (Some "}")]])) !! 0
    = Some {| OpenAI.call_id := "call_a"; OpenAI.call_name := "search" +:+ name;
              OpenAI.call_arguments := "{" +:+ arguments |}.
Proof.
  exact (slots_only_grow allHandlers
           [toolChunk [toolDelta 0 (Some "call_a") (Some "search") (Some "{")]]
           [toolChunk [toolDelta 0 None None (Some "}")]] 0
           {| OpenAI.call_id := "call_a"; OpenAI.call_name := "search";
              OpenAI.call_arguments := "{" |} eq_refl).
Defined.

(** ** Normalizing, serializing and reading back content *)

Section ContentFacts.
Context `{RT : Runtime}.
Import LangChain.

Lemma normalize_other (raw : json) :
  normalizeContentBlock (IOther raw)
  = IOther match jget "type" raw with
           | Some (JStr s) =>
               if decide (s = "image_url")
               then JObj (("type", JStr "image_url") ::
                          match jget "image_url" raw with
                          | Some u => [("image_url", u)]
                          | None => []
                          end)
               else raw
           | _ => raw
           end.
Proof.
  cbn [normalizeContentBlock].
  destruct (jget "type" raw) as [[| | |s| |]|]; try reflexivity.
  destruct (decide (s = "image_url")) as [->|Hne]; [reflexivity|].
  repeat (try reflexivity; try congruence;
          match goal with
          | |- context [match ?x with _ => _ end] => is_var x; destruct x
          end).
Qed.

Lemma convertBlock_normalized (block : contentItem) :
  convertBlock (normalizeContentBlock block) = normalizeContentBlock block.
Proof.
  destruct block as [| |id name input| |raw]; try reflexivity.
  - cbn. now rewrite orEmptyObject_idempotent.
  - now rewrite normalize_other.
Qed.

(** Normalizing a content block twice is the same as normalizing it once,
    converting a normalized block for the returned message changes nothing,
    and a normalized block is never a bare string. *)
Theorem normalization_is_idempotent (block : contentItem) :
  normalizeContentBlock (normalizeContentBlock block) = normalizeContentBlock block
  /\ convertBlock (normalizeContentBlock block) = normalizeContentBlock block
  /\ (forall s, normalizeContentBlock block <> IString s).
Proof.
  destruct block as [s|text|id name input|tool_use_id content blockId|raw].
  - repeat split; discriminate.
  - repeat split; discriminate.
  - cbn. rewrite orEmptyObject_idempotent. repeat split; discriminate.
  - repeat split; discriminate.
  - rewrite normalize_other. split; [|split; [reflexivity | discriminate]].
    destruct (jget "type" raw) as [[| | |s| |]|] eqn:Htype;
      try (rewrite normalize_other, Htype; reflexivity).
    destruct (decide (s = "image_url")) as [->|Hne].
    + destruct (jget "image_url" raw); reflexivity.
    + rewrite normalize_other, Htype. now rewrite decide_False by exact Hne.
Qed.

Lemma serializePart_text (part : bool * string) :
  serializePart (textPartJson part) = part.2.
Proof. destruct part as [[] text]; reflexivity. Qed.

(** A tool result made of strings and text blocks is serialized to their
    texts joined by line feeds, in order; [JSON.stringify] plays no part. *)
Theorem text_results_are_joined (parts : list (bool * string)) :
  serializeToolResultContent (Some (JArr (map textPartJson parts)))
  = join newline (map snd parts).
Proof.
  cbn [serializeToolResultContent]. f_equal. rewrite map_map.
  apply map_ext. apply serializePart_text.
Qed.

Lemma toolUseIds_normalized (items : list contentItem) :
  toolUseIds (map normalizeContentBlock items) = toolUseIds items.
Proof.
  unfold toolUseIds. induction items as [|item items IH]; [reflexivity|].
  cbn [map omap list_omap].
  destruct item as [| |id name input| |raw].
  - exact IH.
  - exact IH.
  - cbn [normalizeContentBlock]. f_equal. exact IH.
  - exact IH.
  - rewrite normalize_other. exact IH.
Qed.

Lemma filter_none {A} (P : A -> Prop) `{!forall x, Decision (P x)} (l : list A) :
  Forall (fun x => ~ P x) l -> filter P l = [].
Proof.
  induction 1 as [|x l Hx _ IH]; [reflexivity|].
  now rewrite filter_cons_False by exact Hx.
Qed.

(** Reading back what was sent adds nothing. When the tool_use blocks of a
    stored assistant message all have an id, the provider message that
    carries these blocks as content and, as the builder derives them, as
    tool calls is converted to the normalized blocks themselves: no tool
    call is appended a second time. *)
Theorem echo_adds_no_block (items : list contentItem) (stop finish delta : option string)
    (stopReason : option string) :
  Forall (fun id => nonEmpty id = true) (toolUseIds items) ->
  final_content
    (convertAIMessageLikeToClaudeMessage (Some (echoOf items stop finish delta)) stopReason)
  = map normalizeContentBlock items.
Proof.
  intros Hids. unfold convertAIMessageLikeToClaudeMessage, echoOf.
  cbn [final_content ai_content ai_tool_calls convertContentToClaudeBlocks].
  assert (Hblocks : map convertBlock (map normalizeContentBlock items)
                    = map normalizeContentBlock items).
  { rewrite map_map. apply map_ext. apply convertBlock_normalized. }
  rewrite Hblocks. unfold toolBlocks. cbn [default extractToolCalls].
  rewrite filter_none; [apply app_nil_r|].
  apply Forall_forall. intros toolCall Hin Hkept.
  apply list_elem_of_omap in Hin as (block & Hblock & Hcall).
  destruct block as [| |id name input| |]; try discriminate.
  inversion Hcall; subst toolCall. cbn [lc_id hasId] in Hkept.
  apply bool_decide_eq_false in Hkept. apply Hkept.
  assert (Hid : id ∈ toolUseIds items).
  { unfold toolUseIds. apply list_elem_of_omap. eexists. split; [exact Hblock|reflexivity]. }
  apply existingToolIds_spec. rewrite toolUseIds_normalized. split; [exact Hid|].
  exact (proj1 (Forall_forall _ _) Hids id Hid).
Qed.

End ContentFacts.

Lemma echo_adds_no_block_witness :
  final_content
    (LangChain.convertAIMessageLikeToClaudeMessage (RT:=sampleRuntime)
       (Some (echoOf (RT:=sampleRuntime)
                [IString "Let me look"; IToolUse "call_a" "get_cart" JNull]
                None None None)) None)
  = [IText "Let me look"; IToolUse "call_a" "get_cart" (JObj [])].
Proof.
  apply (echo_adds_no_block (RT:=sampleRuntime)
           [IString "Let me look"; IToolUse "call_a" "get_cart" JNull]
           None None None None).
  repeat constructor.
Defined.

(** ** The assistant entry of the raw OpenAI adapter *)

Section AssistantEntryFacts.
Context `{RT : Runtime}.
Import OpenAI.

(** The entry built for an assistant message with array content: its tool
    calls are the tool_use blocks of the content, one call per block and in
    order, with the block's id and name and the JSON text of its input; the
    tool_calls field is left out when there is no tool_use block and is
    never an empty array; and an entry with tool calls never carries a
    null or empty content, the field being deleted instead. *)
Theorem assistant_entry_shape (items : list contentItem) :
  let entry := assistantMessage items in
  msg_role entry = Assistant
  /\ msg_tool_call_id entry = None
  /\ default [] (msg_tool_calls entry) = toolCallsOf items
  /\ map call_id (toolCallsOf items) = toolUseIds items
  /\ msg_tool_calls entry <> Some []
  /\ (msg_tool_calls entry = None <-> toolUseIds items = [])
  /\ (msg_tool_calls entry <> None ->
      msg_content entry <> CNull /\ msg_content entry <> CStr "").
Proof.
  cbn zeta. unfold assistantMessage.
  cbn [msg_role msg_tool_call_id msg_tool_calls msg_content].
  rewrite <- call_ids_toolCallsOf.
  destruct (toolCallsOf items) as [|toolCall toolCalls] eqn:Hcalls.
  - repeat split; try discriminate; congruence.
  - split; [reflexivity|]. split; [reflexivity|]. split; [reflexivity|].
    split; [reflexivity|]. split; [discriminate|]. split; [split; discriminate|].
    intros _.
    destruct (omap textItem items) as [|text [|text' texts]].
    + split; discriminate.
    + destruct text; split; discriminate.
    + split; discriminate.
Qed.

End AssistantEntryFacts.

Lemma assistant_entry_shape_witness :
  OpenAI.msg_content
    (OpenAI.assistantMessage (RT:=sampleRuntime) [IToolUse "call_a" "get_cart" (JObj [])])
  <> OpenAI.CNull.
Proof.
  apply (assistant_entry_shape (RT:=sampleRuntime) [IToolUse "call_a" "get_cart" (JObj [])]).
  discriminate.
Defined.

(** ** Tool catalogs and plain user messages *)

Section CatalogFacts.
Context `{RT : Runtime}.

Lemma jsOr_truthy (o : option json) (d : json) :
  jsTruthy d = true -> jsTruthy (jsOr o d) = true.
Proof.
  intros Hd. unfold jsOr. destruct o as [j|]; [|exact Hd].
  destruct (jsTruthy j) eqn:Hj; [exact Hj | exact Hd].
Qed.

Lemma orElse_empty (o : option string) :
  orElse o "" = match o with Some s => s | None => "" end.
Proof. destruct o as [[|c s]|]; reflexivity. Qed.

(** Converting a non-empty tool catalog for OpenAI gives one function tool
    per declaration, in the order of the declarations.  Each tool has the
    name of its declaration, its description or the empty string when there
    is none, and as parameters the declaration's input schema or, when that
    is missing or falsy, a default: an object schema with no properties that
    allows additional ones in [convertClaudeToolsToOpenAITools], the empty
    object in the raw service.  The parameters are never falsy. *)
Theorem converted_tools_keep_names (tool : LangChain.toolDeclaration)
    (tools : list LangChain.toolDeclaration) :
  let catalog := tool :: tools in
  (exists converted,
      LangChain.convertClaudeToolsToOpenAITools (Some catalog) = Some converted
      /\ Forall2
           (fun declaration t =>
              LangChain.fn_name t = LangChain.tool_name declaration
              /\ LangChain.fn_description t
                 = match LangChain.tool_description declaration with
                   | Some description => description
                   | None => ""
                   end
              /\ LangChain.fn_parameters t
                 = match LangChain.tool_input_schema declaration with
                   | Some schema =>
                       if jsTruthy schema then schema
                       else JObj [("type", JStr "object"); ("properties", JObj []);
                                  ("additionalProperties", JBool true)]
                   | None =>
                       JObj [("type", JStr "object"); ("properties", JObj []);
                             ("additionalProperties", JBool true)]
                   end
              /\ jsTruthy (LangChain.fn_parameters t) = true)
           catalog converted)
  /\ (exists converted,
         OpenAI.convertTools (Some catalog) = Some converted
         /\ Forall2
              (fun declaration t =>
                 OpenAI.fn_name t = LangChain.tool_name declaration
                 /\ OpenAI.fn_description t
                    = match LangChain.tool_description declaration with
                      | Some description => description
                      | None => ""
                      end
                 /\ OpenAI.fn_parameters t
                    = match LangChain.tool_input_schema declaration with
                      | Some schema => if jsTruthy schema then schema else JObj []
                      | None => JObj []
                      end
                 /\ jsTruthy (OpenAI.fn_parameters t) = true)
              catalog converted).
Proof.
  cbn zeta. split.
  - eexists. split; [reflexivity|].
    apply Forall2_fmap_r. apply Forall_Forall2_diag. apply Forall_forall.
    intros declaration _. unfold LangChain.convertTool.
    cbn [LangChain.fn_name LangChain.fn_description LangChain.fn_parameters].
    split; [reflexivity|]. split; [apply orElse_empty|]. split.
    + unfold jsOr, LangChain.defaultParameters.
      now destruct (LangChain.tool_input_schema declaration).
    + now apply jsOr_truthy.
  - eexists. split; [reflexivity|].
    apply Forall2_fmap_r. apply Forall_Forall2_diag. apply Forall_forall.
    intros declaration _. unfold OpenAI.convertTool.
    cbn [OpenAI.fn_name OpenAI.fn_description OpenAI.fn_parameters].
    split; [reflexivity|]. split; [apply orElse_empty|]. split.
    + unfold jsOr. now destruct (LangChain.tool_input_schema declaration).
    + now apply jsOr_truthy.
Qed.

Import OpenAI.

Lemma textContentOf_texts (texts : list string) :
  Forall (fun text => nonEmpty text = true) texts ->
  textContentOf (map IText texts) = map PartStr texts.
Proof.
  unfold textContentOf. induction 1 as [|text texts Htext _ IH]; [reflexivity|].
  cbn [map]. rewrite filter_cons_True by reflexivity. cbn [map textPartOf].
  rewrite Htext. now f_equal.
Qed.

Lemma userContent_texts (texts : list string) :
  userContent (map PartStr texts) = CStr (join newline texts).
Proof.
  destruct texts as [|text [|text' texts]]; try reflexivity.
  unfold userContent. cbn [map]. do 2 f_equal.
  rewrite map_map. cbn. now rewrite map_id.
Qed.

(** A user message whose content is an array of non-empty text blocks
    becomes, wherever it stands after a message that does not consume it,
    one user entry whose content is the texts joined by line feeds, and the
    conversion goes on with the next message. *)
Theorem user_texts_are_joined (h : bool) (texts : list string) (rest : list message) :
  Forall (fun text => nonEmpty text = true) texts ->
  convertMessages h (mkMessage User (MArr (map IText texts)) :: rest)
  = {| msg_role := User; msg_content := CStr (join newline texts);
       msg_tool_calls := None; msg_tool_call_id := None |}
      :: convertMessages h rest.
Proof.
  intros Htexts. rewrite convertMessages_cons.
  change (isSystem (mkMessage User (MArr (map IText texts)))) with false.
  cbn [andb mkMessage role_of content_of].
  assert (Hnone : hasToolResults (map IText texts) = false).
  { unfold hasToolResults. clear Htexts.
    induction texts as [|text texts IH]; [reflexivity | exact IH]. }
  rewrite Hnone. f_equal. unfold userMessage. f_equal.
  rewrite (textContentOf_texts texts Htexts). apply userContent_texts.
Qed.

End CatalogFacts.

Lemma user_texts_are_joined_witness :
  OpenAI.convertMessages (RT:=sampleRuntime) false
    [mkMessage User (MArr [IText "hello"; IText "there"])]
  = [{| OpenAI.msg_role := User;
        OpenAI.msg_content := OpenAI.CStr (join newline ["hello"; "there"]);
        OpenAI.msg_tool_calls := None; OpenAI.msg_tool_call_id := None |}].
Proof.
  apply (user_texts_are_joined (RT:=sampleRuntime) false ["hello"; "there"] []).
  repeat constructor.
Defined.

(** ** Stored tool-role results and merged text *)

(** C1 as stated fails: when the history stores the result of the only
    invocation as a message of role tool, the adapter answers the
    invocation with an empty reply and passes the stored message on after
    it, so that two tool-role entries follow the assistant entry and the
    one that names the call does not carry the result. *)
Lemma tool_role_result_is_not_correlated :
  let request := OpenAI.buildOpenAIMessages (RT:=sampleRuntime) toolRoleHistory None in
  map OpenAI.msg_role request = [Assistant; Tool; Tool]
  /\ map OpenAI.msg_content request
     = [OpenAI.CAbsent; OpenAI.CStr ""; OpenAI.CStr "ok"]
  /\ map OpenAI.msg_tool_call_id request = [None; Some "call_a"; None].
Proof. repeat split. Qed.

(** Two invocations answered by one result: [buildLangChainMessages] emits
    the one tool message of the stored result and none for the invocation
    without one. *)
Example langchain_replies_follow_results :
  LangChain.buildLangChainMessages (RT:=sampleRuntime)
    [mkMessage Assistant (MArr [IToolUse "call_a" "get_cart" (JObj []);
                                IToolUse "call_b" "update_cart" (JObj [])]);
     mkMessage User (MArr [IToolResult "call_a" (Some (JStr "ok")) None])]
    None
  = [LangChain.AIMessage
       (LangChain.NBlocks [IToolUse "call_a" "get_cart" (JObj []);
                           IToolUse "call_b" "update_cart" (JObj [])])
       [{| lc_id := Some "call_a"; lc_name := "get_cart";
           lc_args := Some (JObj []) |};
        {| lc_id := Some "call_b"; lc_name := "update_cart";
           lc_args := Some (JObj []) |}];
     LangChain.ToolMessage "ok" "call_a"].
Proof. reflexivity. Qed.

Section ConcatenationFacts.
Context `{RT : Runtime} {E : Type}.
Import LangChain.

Lemma foldl_concat_text (a : aiMessage) (x : string) (stream : list aiMessage)
    (texts : list string) :
  concatenatesText ->
  ai_content a = LStr x ->
  Forall2 (fun chunk text => ai_content chunk = LStr text) stream texts ->
  ai_content (foldl concat a stream) = LStr (x +:+ join "" texts).
Proof.
  intros Hconcat Ha Hall. revert a x Ha.
  induction Hall as [|chunk text stream texts Hchunk _ IH]; intros a x Ha.
  - cbn. now rewrite append_empty_r.
  - cbn [foldl]. rewrite (IH (concat a chunk) (x +:+ text)).
    + now rewrite join_empty_cons, append_assoc.
    + now apply Hconcat.
Qed.

Lemma aggregate_text (stream : list aiMessage) (texts : list string) :
  concatenatesText ->
  Forall2 (fun chunk text => ai_content chunk = LStr text) stream texts ->
  ai_content (aggregate stream) = LStr (join "" texts).
Proof.
  intros Hconcat Hall. destruct Hall as [|chunk text stream texts Hchunk Hall];
    [reflexivity|].
  cbn [aggregate]. rewrite join_empty_cons.
  now apply foldl_concat_text.
Qed.

Lemma text_blocks_of_converted (m : aiMessage) (text : string) (stopReason : option string) :
  ai_content m = LStr text ->
  filter (fun block => isText block = true)
         (final_content (convertAIMessageLikeToClaudeMessage (Some m) stopReason))
  = if nonEmpty text then [IText text] else [].
Proof.
  intros Hcontent. unfold convertAIMessageLikeToClaudeMessage. cbn [final_content].
  rewrite Hcontent, filter_app. unfold toolBlocks.
  rewrite (filter_isText_toolUse _ (toolBlocks_shape (fun k => k) _)), app_nil_r.
  cbn. destruct (nonEmpty text); [|reflexivity].
  now rewrite filter_cons_True by reflexivity.
Qed.

(** When [concat] concatenates string contents, the LangChain-based
    services merge the text of a stream of chunks with string content into
    at most one text block: the returned message has one text block holding
    the texts of the chunks concatenated in arrival order, and no text
    block when that concatenation is empty. *)
Theorem langchain_text_is_concatenated (h : streamHandlers E)
    (stream : list aiMessage) (texts : list string) :
  concatenatesText ->
  Forall2 (fun chunk text => ai_content chunk = LStr text) stream texts ->
  let text := join "" texts in
  filter (fun block => isText block = true)
         (final_content (Claude.streamConversation stream h).2)
  = (if nonEmpty text then [IText text] else [])
  /\ filter (fun block => isText block = true)
            (final_content (OpenAILangChain.streamConversation stream h).2)
     = (if nonEmpty text then [IText text] else []).
Proof.
  intros Hconcat Hall text.
  pose proof (aggregate_text stream texts Hconcat Hall) as Hmerged.
  unfold Claude.streamConversation, OpenAILangChain.streamConversation. cbn [snd].
  rewrite claude_final_chunk, openai_final_chunk.
  split; now apply text_blocks_of_converted.
Qed.

End ConcatenationFacts.

Lemma langchain_text_is_concatenated_witness :
  filter (fun block => isText block = true)
         (final_content (Claude.streamConversation (RT:=sampleRuntime) twoTextChunks
                           allHandlers).2)
  = [IText "Hello"].
Proof.
  refine (proj1 (langchain_text_is_concatenated (RT:=sampleRuntime) allHandlers
                   twoTextChunks ["Hel"; "lo"] _ _)).
  - intros a b x y Ha Hb. cbn. now rewrite Ha, Hb.
  - repeat constructor.
Defined.
